(** * stripe-onboarder: the flow execution engine of [src/onboard.ts]

    A shallow embedding of [onboard], [getDefaultOnboardValues],
    [fillOutFlow], [fillOutPages] and [fillOutSummaryPage], with the
    browser, the page and the form-filling helpers of [./tasks/stripe]
    kept abstract, and the properties of the engine proved over every
    behaviour of that outside world. *)

From Stdlib Require Import ZArith String Ascii List Bool Lia.
From stdpp Require Import base strings gmap list.
Import ListNotations.

Local Open Scope string_scope.
Local Open Scope Z_scope.
Local Open Scope list_scope.

(** ** JavaScript values held in the option and value objects *)

(** A property of [OnboardValues]: a string, or the nested [address]
    object whose own properties are strings.  [undefined] may be stored
    explicitly in a [Partial<OnboardValues>]. *)
Inductive value : Type :=
| VUndefined
| VStr (s : string)
| VObj (o : gmap string string).

Global Instance value_eq_dec : EqDecision value.
Proof. solve_decision. Defined.

(** A JavaScript object with string keys. *)
Abbreviation object := (gmap string value).

(** [{ ...a, ...b }]: the own properties of [b] override those of [a]. *)
Definition spread (a b : object) : object := b ∪ a.

(** ** [OnboardOptions] *)

(** [debug?: boolean | object] *)
Inductive debug_payload : Type :=
| DebugBool (b : bool)
| DebugObject (o : object).

Record OnboardOptions : Type := {
  headless : option bool;
  silent : option bool;
  values : option object;
  url : string;
  debug : option debug_payload
}.

(** Truthiness of [options.debug]: [undefined] and [false] are falsy,
    [true] and every object are truthy. *)
Definition debug_truthy (d : option debug_payload) : bool :=
  match d with
  | None => false
  | Some (DebugBool b) => b
  | Some (DebugObject _) => true
  end.

(** ** [getDefaultOnboardValues] *)

(** The values drawn from faker by one call of [getDefaultOnboardValues]. *)
Record Faker : Type := {
  name_firstName : string;
  name_lastName : string;
  company_name : string;
  internet_url : string;
  internet_exampleEmail : string -> string -> string;
  name_jobTitle : string
}.

(** [obj.address.<k> = v] and [delete obj.address.<k>] act on the object
    that the [address] property refers to. *)
Definition on_address (f : gmap string string -> gmap string string)
  (o : object) : object :=
  alter (fun v => match v with VObj a => VObj (f a) | _ => v end) "address" o.

Definition defaultValues (faker : Faker) : object :=
  let firstName := name_firstName faker in
  let lastName := name_lastName faker in
  list_to_map [
    ("account_number", VStr "000123456789");
    ("address", VObj (list_to_map [
        ("line1", "address_full_match");
        ("line2", "");
        ("city", "Beverly Hills");
        ("state", "CA");
        ("zip", "90210") ]));
    ("country", VStr "US");
    ("business_type", VStr "company");
    ("company_name", VStr (company_name faker));
    ("company_phone", VStr "0000000000");
    ("company_tax_id", VStr "000000000");
    ("company_url", VStr (internet_url faker));
    ("date_of_birth", VStr "01011901");
    ("email", VStr (internet_exampleEmail faker firstName lastName));
    ("first_name", VStr firstName);
    ("id_number", VStr "000000000");
    ("last_name", VStr lastName);
    ("phone", VStr "0000000000");
    ("routing_number", VStr "110000000");
    ("ssn_last_4", VStr "0000");
    ("title", VStr (name_jobTitle faker)) ].

(** [getDefaultOnboardValues(country = "US")]: the default parameter
    replaces a missing or [undefined] argument; the [switch] compares
    with [===]. *)
Definition getDefaultOnboardValues (faker : Faker) (country : option value)
  : object :=
  let country :=
    match country with
    | None | Some VUndefined => VStr "US"
    | Some c => c
    end in
  let defaultValues := defaultValues faker in
  if decide (country = VStr "DK") then
    let defaultValues := <["phone" := VStr "00000000"]> defaultValues in
    let defaultValues := <["company_phone" := VStr "00000000"]> defaultValues in
    let defaultValues := on_address <["zip" := "8000"]> defaultValues in
    let defaultValues := on_address <["city" := "Aarhus"]> defaultValues in
    let defaultValues :=
      <["account_number" := VStr "DK5000400440116243"]> defaultValues in
    let defaultValues := on_address (delete "state") defaultValues in
    let defaultValues := delete "routing_number" defaultValues in
    defaultValues
  else defaultValues.

(** [options.values?.country] *)
Definition values_country (options : OnboardOptions) : option value :=
  match values options with
  | None => None
  | Some vs => vs !! "country"
  end.

(** The merge at the head of [onboard]:
    [{ ...getDefaultOnboardValues(options.values?.country), ...options.values }];
    spreading [undefined] adds nothing. *)
Definition onboard_values (faker : Faker) (options : OnboardOptions) : object :=
  spread (getDefaultOnboardValues faker (values_country options))
         (default ∅ (values options)).

(** [o.address.<k>] *)
Definition address_field (o : object) (k : string) : option string :=
  match o !! "address" with
  | Some (VObj a) => a !! k
  | _ => None
  end.


(** ** Errors, promises and the outside world *)

(** A thrown [Error] object. *)
Record exn : Type := { exn_name : string; exn_message : string }.

Global Instance exn_eq_dec : EqDecision exn.
Proof. solve_decision. Defined.

(** [new Error(message)] *)
Definition Error (message : string) : exn :=
  {| exn_name := "Error"; exn_message := message |}.

(** [Error.prototype.toString] *)
Definition exn_toString (e : exn) : string :=
  if decide (exn_name e = "") then exn_message e
  else if decide (exn_message e = "") then exn_name e
  else exn_name e +:+ ": " +:+ exn_message e.

(** How an awaited promise settles. *)
Inductive outcome (A : Type) : Type :=
| Fulfilled (a : A)
| Rejected (e : exn).
Arguments Fulfilled {A} a.
Arguments Rejected {A} e.

(** A promise object that was not awaited.  Like every object it is
    truthy, and string concatenation turns it into [[object Promise]]. *)
Inductive promise (A : Type) : Type :=
| Promise (settles : outcome A).
Arguments Promise {A} settles.

Definition promise_truthy {A} (p : promise A) : bool := true.
Definition promise_toString {A} (p : promise A) : string := "[object Promise]".

(** The double quote and the line feed, as strings. *)
Definition dquote : string := String (ascii_of_nat 34) "".
Definition newline : string := String (ascii_of_nat 10) "".

(** [Array.prototype.join] on the texts read from the page: [null] and
    [undefined] elements are joined as the empty string. *)
Fixpoint join (sep : string) (l : list (option string)) : string :=
  match l with
  | [] => ""
  | [x] => default "" x
  | x :: rest => default "" x +:+ sep +:+ join sep rest
  end.

(** An [ElementHandle]. *)
Definition handle : Type := nat.

(** The argument of puppeteer's [launch]. *)
Record LaunchOptions : Type := {
  launch_headless : bool;
  launch_width : Z;
  launch_height : Z;
  launch_slowMo : Z;
  launch_args : list string
}.

(** ora's [Options] as [getOraOptions] builds them. *)
Record OraOptions : Type := {
  text : string;
  isSilent : bool;
  isEnabled : bool
}.

(** [FlowContext]; the [page] it also carries is part of the world. *)
Record FlowContext : Type := {
  context_options : OnboardOptions;
  context_values : object
}.

(** A call into the browser or into [./tasks/stripe], with the way its
    promise settled. *)
Inductive io : Type :=
| Launch (o : LaunchOptions) (r : outcome unit)
| Close (r : outcome unit)
| NewPage (r : outcome unit)
| SetExtraHTTPHeaders (headers : list (string * string)) (r : outcome unit)
| Goto (url : string) (r : outcome unit)
| WaitForNetworkIdle (idleTime : Z) (r : outcome unit)
| Query (selector : string) (r : outcome (option handle))
| QueryAll (selector : string) (r : outcome (list handle))
| TextContent (h : handle) (r : outcome (option string))
| Click (h : handle) (r : outcome unit)
| Alert (message : string) (r : outcome unit)
| LocationHref (r : outcome string)
| IsOnStripePage (r : outcome bool)
| Stripe (helper : string) (arg : option string) (r : outcome unit)
| FlowTask (name : string) (r : outcome unit).

(** What the engine does, in order. *)
Inductive event : Type :=
| Ora (o : OraOptions)
| Await (c : io)
| NoAwait (c : io)
| TaskBegin (name : string)
| InTask (c : io)
| TaskEnd (name : string) (r : outcome unit).

Section Monad.

(** The state of everything outside the engine: browser, page, network,
    the Stripe site. *)
Context {W : Type}.

(** An asynchronous operation on the outside world, run to completion. *)
Definition act (A : Type) : Type := W -> outcome A * W.

(** The collaborators of the engine.  Puppeteer, ora and the JavaScript
    runtime are libraries; [./tasks/stripe], [./flows] and [package.json]
    are files of the repository that the engine only imports. *)
Record World : Type := {
  (* puppeteer *)
  launch : LaunchOptions -> act unit;
  browser_close : act unit;
  browser_newPage : act unit;
  page_setExtraHTTPHeaders : list (string * string) -> act unit;
  page_goto : string -> act unit;
  page_waitForNetworkIdle : Z -> act unit;
  page_query : string -> act (option handle);
  page_queryAll : string -> act (list handle);
  element_textContent : handle -> act (option string);
  element_click : handle -> act unit;
  window_alert : string -> act unit;
  document_location_href : act string;
  (* ./tasks/stripe *)
  clickSubmitButton : FlowContext -> option string -> act unit;
  fillOutBusinessType : FlowContext -> act unit;
  fillOutCountry : FlowContext -> act unit;
  fillOutEmail : FlowContext -> act unit;
  fillOutPhoneNumber : FlowContext -> string -> act unit;
  fillOutVerificationCode : FlowContext -> act unit;
  isOnStripePage : FlowContext -> act bool;
  (* ./flows: the own properties of [allFlows], each an array of named
     page tasks *)
  allFlows : string -> option (list (string * (FlowContext -> act unit)));
  (* package.json *)
  version : string;
  (* runtime *)
  JSON_stringify : object -> string;
  String_trim : string -> string;
  faker : Faker
}.

(** *** The monad of the engine: world state, thrown errors, event log *)

Definition M (E A : Type) : Type := W -> outcome A * W * list E.

Definition ret {E A} (a : A) : M E A := fun w => (Fulfilled a, w, []).

Definition throw {E A} (e : exn) : M E A := fun w => (Rejected e, w, []).

Definition bind {E A B} (m : M E A) (k : A -> M E B) : M E B :=
  fun w =>
    match m w with
    | (Fulfilled a, w1, t1) =>
        let '(r, w2, t2) := k a w1 in (r, w2, t1 ++ t2)
    | (Rejected e, w1, t1) => (Rejected e, w1, t1)
    end.

(** [try { m } catch (e) { h e }] *)
Definition try_catch {E A} (m : M E A) (h : exn -> M E A) : M E A :=
  fun w =>
    match m w with
    | (Fulfilled a, w1, t1) => (Fulfilled a, w1, t1)
    | (Rejected e, w1, t1) =>
        let '(r, w2, t2) := h e w1 in (r, w2, t1 ++ t2)
    end.

Definition emit {E} (e : E) : M E unit := fun w => (Fulfilled tt, w, [e]).

(** [await f(...)] *)
Definition await {E A} (mk : outcome A -> E) (f : act A) : M E A :=
  fun w => let '(r, w1) := f w in (r, w1, [mk r]).

(** [f(...)] with no [await]: the call is made, the promise object is
    the value, and a rejection is not thrown here. *)
Definition no_await {E A} (mk : outcome A -> E) (f : act A) : M E (promise A) :=
  fun w => let '(r, w1) := f w in (Fulfilled (Promise r), w1, [mk r]).

End Monad.

Arguments act W A : clear implicits.
Arguments World W : clear implicits.
Arguments M W E A : clear implicits.

Declare Scope engine_scope.
Delimit Scope engine_scope with engine.
Notation "'let*' x ':=' m 'in' k" := (bind m (fun x => k))
  (at level 10, x name, m at level 100, k at level 200) : engine_scope.
Notation "m ;; k" := (bind m (fun _ => k))
  (at level 100, k at level 200, right associativity) : engine_scope.

Local Open Scope engine_scope.

Section Engine.

Context {W : Type} (world : World W).

(** The [task(context)] of [fillOutPages]: a named function of the
    context whose calls show up inside the task's bracket of the log. *)
Record task : Type := {
  task_name : string;
  task_run : FlowContext -> M W io unit
}.

(** *** [src/tasks/puppeteer.ts] *)

Definition waitForNavigation {E} (mk : io -> E) : M W E unit :=
  await (fun r => mk (WaitForNetworkIdle 3000 r))
        (page_waitForNetworkIdle world 3000).

Definition getCurrentUrl : act W string := document_location_href world.

(** *** ora *)

(** [oraPromise(action, options)] shows a spinner labelled
    [options.text] around the action and settles as the action does. *)
Definition oraPromise {A} (action : M W event A) (options : OraOptions)
  : M W event A :=
  emit (Ora options);; action.

Definition getOraOptions (options : OnboardOptions) (text : string) : OraOptions :=
  {| text := text;
     isSilent := default true (silent options);
     isEnabled := default true (silent options) |}.

(** *** The fixed page tasks *)

Definition stripe (helper : string) (arg : option string) (f : act W unit)
  : M W io unit :=
  await (Stripe helper arg) f.

Definition fillOutGetPaidByPage : task :=
  {| task_name := "fillOutGetPaidByPage";
     task_run := fun context =>
       stripe "fillOutEmail" None (fillOutEmail world context);;
       stripe "fillOutPhoneNumber" (Some "personal")
              (fillOutPhoneNumber world context "personal");;
       stripe "clickSubmitButton" None (clickSubmitButton world context None) |}.

Definition fillOutVerificationCodePage : task :=
  {| task_name := "fillOutVerificationCodePage";
     task_run := fun context =>
       stripe "fillOutVerificationCode" None
              (fillOutVerificationCode world context) |}.

Definition fillOutTellUsAboutYourBusinessPage : task :=
  {| task_name := "fillOutTellUsAboutYourBusinessPage";
     task_run := fun context =>
       stripe "fillOutCountry" None (fillOutCountry world context);;
       stripe "fillOutBusinessType" None (fillOutBusinessType world context) |}.

Definition summary_missing : string :=
  "Fields were missing in summary despite no errors during flow.".

Definition dialogConfirmSelector : string :=
  "*[role=" +:+ dquote +:+ "dialog" +:+ dquote +:+ "] button.Button--color--blue".

Definition fillOutSummaryPage : task :=
  {| task_name := "fillOutSummaryPage";
     task_run := fun context =>
       let* statusBoxes :=
         await (QueryAll "*[role=status]") (page_queryAll world "*[role=status]") in
       if (0 <? length statusBoxes)%nat then throw (Error summary_missing)
       else
         stripe "clickSubmitButton" (Some "requirements-index-done-button")
           (clickSubmitButton world context
              (Some "requirements-index-done-button"));;
         let* dialogConfirmButton :=
           await (Query dialogConfirmSelector)
                 (page_query world dialogConfirmSelector) in
         match dialogConfirmButton with
         | Some button => await (Click button) (element_click world button)
         | None => ret tt
         end |}.

(** *** [fillOutPages] *)

Definition alertSelector : string :=
  "*[role=" +:+ dquote +:+ "alert" +:+ dquote +:+ "]".

(** [await task(context)], bracketed in the log. *)
Definition run_task (t : task) (context : FlowContext) : M W event unit :=
  fun w =>
    let '(r, w1, calls) := task_run t context w in
    (r, w1,
     [TaskBegin (task_name t)] ++ map InTask calls ++ [TaskEnd (task_name t) r]).

(** [Promise.all(ps)]: every call is made, in order; the result is
    rejected as soon as one of them is. *)
Fixpoint Promise_all {A} (ps : list (M W event A)) : M W event (list A) :=
  fun w =>
    match ps with
    | [] => (Fulfilled [], w, [])
    | p :: ps' =>
        let '(r, w1, t1) := p w in
        let '(rs, w2, t2) := Promise_all ps' w1 in
        (match r, rs with
         | Fulfilled a, Fulfilled l => Fulfilled (a :: l)
         | Rejected e, _ => Rejected e
         | Fulfilled _, Rejected e => Rejected e
         end, w2, t1 ++ t2)
    end.

Definition validation_message (errorMessages : list (option string)) : string :=
  "Validation errors found. " +:+ join ". " errorMessages.

(** One turn of the [for] loop of [fillOutPages]; [next] is the rest of
    the loop. *)
Definition fillOutPages_step (context : FlowContext) (task : task)
  (next : M W event unit) : M W event unit :=
  oraPromise (waitForNavigation Await)
    (getOraOptions (context_options context) "Navigating...");;
  (* [if (!isOnStripePage(context)) return;] tests the promise *)
  let* onStripe :=
    no_await (fun r => NoAwait (IsOnStripePage r))
             (isOnStripePage world context) in
  if negb (promise_truthy onStripe) then ret tt
  else
    let* headingElement :=
      await (fun r => Await (Query "h1" r)) (page_query world "h1") in
    let* headingText :=
      match headingElement with
      | Some el =>
          await (fun r => Await (TextContent el r))
                (element_textContent world el)
      | None => ret None
      end in
    oraPromise (run_task task context)
      (getOraOptions (context_options context)
         (default "" (String_trim world <$> headingText)));;
    let* validationErrors :=
      await (fun r => Await (QueryAll alertSelector r))
            (page_queryAll world alertSelector) in
    if (0 <? length validationErrors)%nat then
      let* errorMessages :=
        Promise_all
          (map (fun el => await (fun r => Await (TextContent el r))
                                (element_textContent world el))
               validationErrors) in
      throw (Error (validation_message errorMessages))
    else
      oraPromise (waitForNavigation Await)
        (getOraOptions (context_options context) "Submitting...");;
      next.

Fixpoint fillOutPages (context : FlowContext) (pageTasks : list task)
  : M W event unit :=
  match pageTasks with
  | [] => ret tt
  | task :: pageTasks' =>
      fillOutPages_step context task (fillOutPages context pageTasks')
  end.

(** *** [fillOutFlow] *)

(** [JSON.stringify(options.debug)] for a truthy payload. *)
Definition stringify_debug (d : option debug_payload) : string :=
  match d with
  | Some (DebugBool true) => "true"
  | Some (DebugBool false) => "false"
  | Some (DebugObject o) => JSON_stringify world o
  | None => "undefined"
  end.

(** Spreading [undefined] into the array of page tasks. *)
Definition not_iterable : exn :=
  {| exn_name := "TypeError"; exn_message := "pageTasks is not iterable" |}.

Definition closeBrowser (options : OnboardOptions) : M W event unit :=
  oraPromise (await (fun r => Await (Close r)) (browser_close world))
             (getOraOptions options "Closing browser").

(** The sequence handed to [fillOutPages]. *)
Definition all_pages (pageTasks : list task) : list task :=
  [fillOutGetPaidByPage; fillOutVerificationCodePage;
   fillOutTellUsAboutYourBusinessPage] ++ pageTasks ++ [fillOutSummaryPage].

(** The body of the [try] block. *)
Definition flow_try (context : FlowContext) (pageTasks : option (list task))
  : M W event unit :=
  let* pages :=
    match pageTasks with
    | Some pageTasks => ret (all_pages pageTasks)
    | None => throw not_iterable
    end in
  fillOutPages context pages;;
  closeBrowser (context_options context).

(** The text handed to [window.alert] in debug mode. *)
Definition debug_message (options : OnboardOptions) (vals : object)
  (e : exn) (location : promise string) : string :=
  exn_toString e +:+
  newline +:+ "debug: " +:+ stringify_debug (debug options) +:+
  newline +:+ "values: " +:+ JSON_stringify world vals +:+
  newline +:+ "url: " +:+ promise_toString location +:+
  newline +:+ version world.

(** The [catch] block. *)
Definition flow_catch (context : FlowContext) (e : exn) : M W event unit :=
  let options := context_options context in
  let* onStripe :=
    await (fun r => Await (IsOnStripePage r)) (isOnStripePage world context) in
  if negb onStripe then ret tt
  else if debug_truthy (debug options) then
    let* location :=
      no_await (fun r => NoAwait (LocationHref r)) getCurrentUrl in
    let message := debug_message options (context_values context) e location in
    await (fun r => Await (Alert message r)) (window_alert world message)
  else
    closeBrowser options;;
    throw e.

(** The [try]/[catch] statement. *)
Definition flow_try_catch (context : FlowContext)
  (pageTasks : option (list task)) : M W event unit :=
  try_catch (flow_try context pageTasks) (flow_catch context).

Definition fillOutFlow (options : OnboardOptions)
  (pageTasks : option (list task)) : M W event unit :=
  match values options with
  | None => throw (Error "Values must be set.")
  | Some vals =>
      oraPromise
        (await (fun r => Await (Launch
                  {| launch_headless := default true (headless options);
                     launch_width := 900;
                     launch_height := 1000;
                     launch_slowMo := 0;
                     launch_args := ["--lang=en-US,en"] |} r))
               (launch world
                  {| launch_headless := default true (headless options);
                     launch_width := 900;
                     launch_height := 1000;
                     launch_slowMo := 0;
                     launch_args := ["--lang=en-US,en"] |}))
        (getOraOptions options
           ("Launching" +:+
            (if default false (headless options) then " headless" else "") +:+
            " browser"));;
      oraPromise
        (await (fun r => Await (NewPage r)) (browser_newPage world);;
         await (fun r => Await (SetExtraHTTPHeaders [("Accept-Language", "en-US")] r))
               (page_setExtraHTTPHeaders world [("Accept-Language", "en-US")]);;
         await (fun r => Await (Goto (url options) r)) (page_goto world (url options)))
        (getOraOptions options "Navigating to Stripe");;
      let context := {| context_options := options; context_values := vals |} in
      flow_try_catch context pageTasks
  end.

(** *** [onboard] *)

(** A page task of [./flows], opaque to the engine. *)
Definition flow_task (t : string * (FlowContext -> act W unit)) : task :=
  {| task_name := t.1;
     task_run := fun context => await (FlowTask t.1) (t.2 context) |}.

(** The property key that a value is converted to. *)
Definition property_key (v : option value) : string :=
  match v with
  | Some (VStr s) => s
  | Some (VObj _) => "[object Object]"
  | Some VUndefined | None => "undefined"
  end.

(** [allFlows[values.business_type]] *)
Definition flow_of (vals : object) : option (list task) :=
  map flow_task <$> allFlows world (property_key (vals !! "business_type")).

Definition onboard (options : OnboardOptions) : M W event unit :=
  let options :=
    match headless options with
    | None =>
        {| headless := Some true; silent := silent options;
           values := values options; url := url options;
           debug := debug options |}
    | Some _ => options
    end in
  let options :=
    match silent options with
    | None =>
        {| headless := headless options; silent := Some true;
           values := values options; url := url options;
           debug := debug options |}
    | Some _ => options
    end in
  let vals := onboard_values (faker world) options in
  fillOutFlow
    {| headless := headless options; silent := silent options;
       values := Some vals; url := url options; debug := debug options |}
    (flow_of vals).

End Engine.

(** ** A small scripted site, to run the engine on *)

Module Toy.

Record page : Type := {
  href : string;
  alerts : list string;
  statusBoxes : nat;
  dialog : bool;
  browser_open : bool;
  shown : list string
}.

Definition set_href (u : string) (p : page) : page :=
  {| href := u; alerts := alerts p; statusBoxes := statusBoxes p;
     dialog := dialog p; browser_open := browser_open p; shown := shown p |}.

Definition set_alerts (a : list string) (p : page) : page :=
  {| href := href p; alerts := a; statusBoxes := statusBoxes p;
     dialog := dialog p; browser_open := browser_open p; shown := shown p |}.

Definition set_dialog (d : bool) (p : page) : page :=
  {| href := href p; alerts := alerts p; statusBoxes := statusBoxes p;
     dialog := d; browser_open := browser_open p; shown := shown p |}.

Definition set_open (b : bool) (p : page) : page :=
  {| href := href p; alerts := alerts p; statusBoxes := statusBoxes p;
     dialog := dialog p; browser_open := b; shown := shown p |}.

Definition show (m : string) (p : page) : page :=
  {| href := href p; alerts := alerts p; statusBoxes := statusBoxes p;
     dialog := dialog p; browser_open := browser_open p;
     shown := shown p ++ [m] |}.

Definition ok {A} (a : A) (p : page) : outcome A * page := (Fulfilled a, p).

Definition stripe_site : string := "https://connect.stripe.com/".

Definition render (kv : string * string) : string :=
  dquote +:+ kv.1 +:+ dquote +:+ ":" +:+ dquote +:+ kv.2 +:+ dquote.

Definition render_value (kv : string * value) : string :=
  dquote +:+ kv.1 +:+ dquote +:+ ":" +:+
  match kv.2 with
  | VStr s => dquote +:+ s +:+ dquote
  | VObj o => "{" +:+ join "," (Some ∘ render <$> map_to_list o) +:+ "}"
  | VUndefined => "null"
  end.

(** A stand-in for [JSON.stringify] on the value objects: a property
    whose value is [undefined] is left out; the properties come in the
    order of the map, not in the order in which they were set. *)
Definition stringify (o : object) : string :=
  "{" +:+
  join ","
    (Some ∘ render_value <$>
     filter (fun kv => kv.2 <> VUndefined) (map_to_list o)) +:+
  "}".

(** Trimming of blanks. *)
Fixpoint strip_left (s : string) : string :=
  match s with
  | String c r => if Ascii.is_space c then strip_left r else s
  | EmptyString => s
  end.

Definition strip (s : string) : string :=
  String.rev (strip_left (String.rev (strip_left s))).

(** The site: [script] says what each helper of [./tasks/stripe] and
    each page task of [./flows] does to the page, by name. *)
Definition site (script : string -> page -> outcome unit * page) : World page :=
  {| launch := fun _ p => ok tt (set_open true p);
     browser_close := fun p => ok tt (set_open false p);
     browser_newPage := ok tt;
     page_setExtraHTTPHeaders := fun _ => ok tt;
     page_goto := fun u p => ok tt (set_href u p);
     page_waitForNetworkIdle := fun _ => ok tt;
     page_query := fun sel p =>
       if decide (sel = "h1") then ok (Some 0%nat) p
       else if decide (sel = dialogConfirmSelector) then
         ok (if dialog p then Some 1%nat else None) p
       else ok None p;
     page_queryAll := fun sel p =>
       if decide (sel = alertSelector) then ok (seq 10 (length (alerts p))) p
       else if decide (sel = "*[role=status]") then
         ok (seq 100 (statusBoxes p)) p
       else ok [] p;
     element_textContent := fun h p =>
       if decide (h = 0%nat) then ok (Some " Details ") p
       else ok (alerts p !! (h - 10)%nat) p;
     element_click := fun h p => ok tt (set_dialog false p);
     window_alert := fun m p => ok tt (show m p);
     document_location_href := fun p => ok (href p) p;
     clickSubmitButton := fun _ id =>
       script ("clickSubmitButton" +:+ default "" id);
     fillOutBusinessType := fun _ => script "fillOutBusinessType";
     fillOutCountry := fun _ => script "fillOutCountry";
     fillOutEmail := fun _ => script "fillOutEmail";
     fillOutPhoneNumber := fun _ _ => script "fillOutPhoneNumber";
     fillOutVerificationCode := fun _ => script "fillOutVerificationCode";
     isOnStripePage := fun _ p => ok (String.prefix stripe_site (href p)) p;
     allFlows := fun k =>
       if decide (k = "company") then
         Some [("fillOutCompanyPage", fun _ => script "fillOutCompanyPage")]
       else if decide (k = "individual") then
         Some [("fillOutPersonPage", fun _ => script "fillOutPersonPage")]
       else if decide (k = "non_profit") then
         Some [("fillOutCompanyPage", fun _ => script "fillOutCompanyPage");
               ("fillOutPersonPage", fun _ => script "fillOutPersonPage")]
       else None;
     version := "1.0.0";
     JSON_stringify := stringify;
     String_trim := strip;
     faker :=
       {| name_firstName := "Ada"; name_lastName := "Lund";
          company_name := "Lund ApS"; internet_url := "https://lund.example";
          internet_exampleEmail := fun f l => f +:+ "." +:+ l +:+ "@example.org";
          name_jobTitle := "Owner" |} |}.

(** A blank tab before the browser is launched. *)
Definition blank : page :=
  {| href := "about:blank"; alerts := []; statusBoxes := 0; dialog := false;
     browser_open := false; shown := [] |}.

(** Every helper succeeds and leaves the page as it is. *)
Definition smooth (helper : string) : page -> outcome unit * page := ok tt.

Definition options_for (u : string) (d : option debug_payload) : OnboardOptions :=
  {| headless := None; silent := None; values := None; url := u; debug := d |}.

(** The first page's submit button sends the browser to the return URL:
    the form is finished early. *)
Definition leaves_early (helper : string) : page -> outcome unit * page :=
  if decide (helper = "clickSubmitButton")
  then fun p => ok tt (set_href "https://stripe.com/" p)
  else ok tt.

(** As [leaves_early], and the verification code field is then not found. *)
Definition leaves_early_and_fails (helper : string)
  : page -> outcome unit * page :=
  if decide (helper = "fillOutVerificationCode")
  then fun p => (Rejected (Error "No element found for selector: input"), p)
  else leaves_early helper.

(** The phone number is refused by the form. *)
Definition bad_phone (helper : string) : page -> outcome unit * page :=
  if decide (helper = "fillOutPhoneNumber")
  then fun p => ok tt (set_alerts ["Phone number invalid"] p)
  else ok tt.

(** The email field is not found. *)
Definition breaks (helper : string) : page -> outcome unit * page :=
  if decide (helper = "fillOutEmail")
  then fun p => (Rejected (Error "No element found for selector: #email"), p)
  else ok tt.

Definition start : string := "https://connect.stripe.com/setup/e/acct_1".

(** The page once the browser is launched and has loaded [start]. *)
Definition loaded : page :=
  {| href := start; alerts := []; statusBoxes := 0; dialog := false;
     browser_open := true; shown := [] |}.

(** The summary page asking for a confirmation. *)
Definition summary_with_dialog : page :=
  {| href := start; alerts := []; statusBoxes := 0; dialog := true;
     browser_open := true; shown := [] |}.

Definition context_for (d : option debug_payload) : FlowContext :=
  {| context_options := options_for start d;
     context_values := {["country" := VStr "DK"]} |}.

(** A flow on a site where every helper succeeds. *)
Definition smooth_run : outcome unit * page * list event :=
  onboard (site smooth) (options_for start None) blank.

(** The [try] block on a site that finishes early and then fails. *)
Definition early_try : outcome unit * page * list event :=
  flow_try (site leaves_early_and_fails) (context_for None) (Some []) loaded.

(** The [try] block on a site whose email field is missing. *)
Definition broken_try : outcome unit * page * list event :=
  flow_try (site breaks) (context_for None) (Some []) loaded.

(** A site whose address cannot be resolved: [page.goto] is rejected. *)
Definition unreachable : World page :=
  let w := site smooth in
  {| launch := launch w;
     browser_close := browser_close w;
     browser_newPage := browser_newPage w;
     page_setExtraHTTPHeaders := page_setExtraHTTPHeaders w;
     page_goto := fun _ p => (Rejected (Error "net::ERR_NAME_NOT_RESOLVED"), p);
     page_waitForNetworkIdle := page_waitForNetworkIdle w;
     page_query := page_query w;
     page_queryAll := page_queryAll w;
     element_textContent := element_textContent w;
     element_click := element_click w;
     window_alert := window_alert w;
     document_location_href := document_location_href w;
     clickSubmitButton := clickSubmitButton w;
     fillOutBusinessType := fillOutBusinessType w;
     fillOutCountry := fillOutCountry w;
     fillOutEmail := fillOutEmail w;
     fillOutPhoneNumber := fillOutPhoneNumber w;
     fillOutVerificationCode := fillOutVerificationCode w;
     isOnStripePage := isOnStripePage w;
     allFlows := allFlows w;
     version := version w;
     JSON_stringify := JSON_stringify w;
     String_trim := String_trim w;
     faker := faker w |}.

(** A site whose email field is missing and whose page no longer
    answers when the alert is to be shown. *)
Definition crashing : World page :=
  let w := site breaks in
  {| launch := launch w;
     browser_close := browser_close w;
     browser_newPage := browser_newPage w;
     page_setExtraHTTPHeaders := page_setExtraHTTPHeaders w;
     page_goto := page_goto w;
     page_waitForNetworkIdle := page_waitForNetworkIdle w;
     page_query := page_query w;
     page_queryAll := page_queryAll w;
     element_textContent := element_textContent w;
     element_click := element_click w;
     window_alert := fun _ p => (Rejected (Error "Target closed"), p);
     document_location_href := document_location_href w;
     clickSubmitButton := clickSubmitButton w;
     fillOutBusinessType := fillOutBusinessType w;
     fillOutCountry := fillOutCountry w;
     fillOutEmail := fillOutEmail w;
     fillOutPhoneNumber := fillOutPhoneNumber w;
     fillOutVerificationCode := fillOutVerificationCode w;
     isOnStripePage := isOnStripePage w;
     allFlows := allFlows w;
     version := version w;
     JSON_stringify := JSON_stringify w;
     String_trim := String_trim w;
     faker := faker w |}.

(** The [try]/[catch] statement there, in debug mode. *)
Definition crashing_flow : outcome unit * page * list event :=
  flow_try_catch crashing (context_for (Some (DebugBool true))) (Some []) loaded.

(** The first page on a site whose email field is missing. *)
Definition broken_page_run : outcome unit * page * list event :=
  fillOutPages (site breaks) (context_for None)
    [fillOutGetPaidByPage (site breaks)] loaded.

(** The pages of a company on a site that finishes early. *)
Definition early_pages : list task :=
  all_pages (site leaves_early)
    [flow_task ("fillOutCompanyPage", fun _ => leaves_early "fillOutCompanyPage")].

Definition early_pages_run : outcome unit * page * list event :=
  fillOutPages (site leaves_early) (context_for None) early_pages loaded.

(** The [try]/[catch] statement on a site whose email field is missing. *)
Definition broken_flow : outcome unit * page * list event :=
  flow_try_catch (site breaks) (context_for None) (Some []) loaded.

(** Options that give some values. *)
Definition options_with (given : object) : OnboardOptions :=
  {| headless := None; silent := None; values := Some given; url := start;
     debug := None |}.

(** The matrix of [test/onboard.test.ts]. *)
Definition matrix : list (string * list value) :=
  [("business_type", [VStr "individual"; VStr "company"; VStr "non_profit"]);
   ("country", [VStr "US"; VStr "DK"])].

(** The page with [n] elements of role status. *)
Definition set_status (n : nat) (p : page) : page :=
  {| href := href p; alerts := alerts p; statusBoxes := n;
     dialog := dialog p; browser_open := browser_open p; shown := shown p |}.


(** The company page leaves a field out: the summary then shows one
    element of role status. *)
Definition missing_fields (helper : string) : page -> outcome unit * page :=
  if decide (helper = "fillOutCompanyPage")
  then fun p => ok tt (set_status 1 p)
  else ok tt.

(** As [missing_fields], and the company page sends the browser to the
    return URL. *)
Definition missing_fields_and_leaves (helper : string)
  : page -> outcome unit * page :=
  if decide (helper = "fillOutCompanyPage")
  then fun p => ok tt (set_href "https://stripe.com/" (set_status 1 p))
  else ok tt.

(** A site whose browser does not close: [browser.close()] is rejected. *)
Definition jammed (script : string -> page -> outcome unit * page)
  : World page :=
  let w := site script in
  {| launch := launch w;
     browser_close := fun p =>
       (Rejected (Error "Protocol error (Browser.close): Target closed"), p);
     browser_newPage := browser_newPage w;
     page_setExtraHTTPHeaders := page_setExtraHTTPHeaders w;
     page_goto := page_goto w;
     page_waitForNetworkIdle := page_waitForNetworkIdle w;
     page_query := page_query w;
     page_queryAll := page_queryAll w;
     element_textContent := element_textContent w;
     element_click := element_click w;
     window_alert := window_alert w;
     document_location_href := document_location_href w;
     clickSubmitButton := clickSubmitButton w;
     fillOutBusinessType := fillOutBusinessType w;
     fillOutCountry := fillOutCountry w;
     fillOutEmail := fillOutEmail w;
     fillOutPhoneNumber := fillOutPhoneNumber w;
     fillOutVerificationCode := fillOutVerificationCode w;
     isOnStripePage := isOnStripePage w;
     allFlows := allFlows w;
     version := version w;
     JSON_stringify := JSON_stringify w;
     String_trim := String_trim w;
     faker := faker w |}.


(** The [try]/[catch] statement on a site where every helper succeeds
    and whose browser does not close. *)
Definition jammed_flow : outcome unit * page * list event :=
  flow_try_catch (jammed smooth) (context_for None) (Some []) loaded.

(** The page tasks of a company, on a site where every helper succeeds. *)
Definition company_flow
  : list (string * (FlowContext -> page -> outcome unit * page)) :=
  [("fillOutCompanyPage", fun _ => smooth "fillOutCompanyPage")].

End Toy.


(** ** What a log says *)

(** The names of the page tasks that were started, in order. *)
Definition begins (tr : list event) : list string :=
  omap (fun e => match e with TaskBegin n => Some n | _ => None end) tr.

(** The number of calls of [browser.close()]. *)
Definition closes (tr : list event) : nat :=
  length (omap (fun e => match e with Await (Close r) => Some r | _ => None end) tr).

(** What [fillOutFlow] does before and after the pages: spinner labels,
    launching and closing the browser, opening the page, the awaited
    site test of the [catch] block and its debug alert. *)
Definition outside_pages (e : event) : bool :=
  match e with
  | Ora _ => true
  | Await (Launch _ _) | Await (NewPage _) | Await (SetExtraHTTPHeaders _ _)
  | Await (Goto _ _) | Await (Close _) | Await (IsOnStripePage _)
  | Await (Alert _ _) => true
  | NoAwait (LocationHref _) => true
  | _ => false
  end.

(** The outcomes of the site tests made without [await]. *)
Definition site_tests (tr : list event) : list (outcome bool) :=
  omap (fun e => match e with NoAwait (IsOnStripePage s) => Some s | _ => None end) tr.

(** [s.includes(sub)] *)
Fixpoint includes (sub s : string) : bool :=
  String.prefix sub s ||
  match s with
  | EmptyString => false
  | String _ s' => includes sub s'
  end.

(** ** The shape of the log of [fillOutPages] *)

(** What the engine does around a page task: spinner labels, waits for
    the network to be idle for 3000 ms, the site test, reads of the
    heading and of alert texts. *)
Definition around_task (e : event) : bool :=
  match e with
  | Ora _ => true
  | Await (WaitForNetworkIdle t _) => bool_decide (t = 3000)
  | NoAwait (IsOnStripePage _) => true
  | Await (Query _ _) => true
  | Await (TextContent _ _) => true
  | _ => false
  end.

(** The reads of the alert texts and the error they lead to. *)
Inductive alert_reads : list handle -> list event -> list (option string) ->
                        option exn -> Prop :=
| reads_nil : alert_reads [] [] [] None
| reads_cons h hs r tr texts failed :
    alert_reads hs tr texts failed ->
    alert_reads (h :: hs) (Await (TextContent h r) :: tr)
      (match r with Fulfilled t => t :: texts | Rejected _ => texts end)
      (match r with Fulfilled _ => failed | Rejected e => Some e end).

Section Shape.

Context (options : OnboardOptions).

Definition navigating : event := Ora (getOraOptions options "Navigating...").
Definition submitting : event := Ora (getOraOptions options "Submitting...").

(** The events of one page task that ran to its end, was accepted by
    the validation check, and whose submission settled. *)
Definition completed_step (n : string) (calls : list io) : list event :=
  TaskBegin n :: map InTask calls ++
  [TaskEnd n (Fulfilled tt);
   Await (QueryAll alertSelector (Fulfilled []));
   submitting;
   Await (WaitForNetworkIdle 3000 (Fulfilled tt))].

Inductive shape : list string -> outcome unit -> list event -> Prop :=
| shape_done :
    shape [] (Fulfilled tt) []
| shape_not_started n names head e :
    forallb around_task head = true ->
    shape (n :: names) (Rejected e) head
| shape_task_rejected n names head calls e :
    forallb around_task head = true ->
    shape (n :: names) (Rejected e)
      (navigating :: Await (WaitForNetworkIdle 3000 (Fulfilled tt)) :: head ++
       TaskBegin n :: map InTask calls ++ [TaskEnd n (Rejected e)])
| shape_check_rejected n names head calls e :
    forallb around_task head = true ->
    shape (n :: names) (Rejected e)
      (navigating :: Await (WaitForNetworkIdle 3000 (Fulfilled tt)) :: head ++
       TaskBegin n :: map InTask calls ++
       [TaskEnd n (Fulfilled tt); Await (QueryAll alertSelector (Rejected e))])
| shape_invalid n names head calls hs reads texts failed :
    forallb around_task head = true ->
    hs <> [] ->
    alert_reads hs reads texts failed ->
    shape (n :: names)
      (Rejected (default (Error (validation_message texts)) failed))
      (navigating :: Await (WaitForNetworkIdle 3000 (Fulfilled tt)) :: head ++
       TaskBegin n :: map InTask calls ++
       [TaskEnd n (Fulfilled tt); Await (QueryAll alertSelector (Fulfilled hs))] ++
       reads)
| shape_unsettled n names head calls e :
    forallb around_task head = true ->
    shape (n :: names) (Rejected e)
      (navigating :: Await (WaitForNetworkIdle 3000 (Fulfilled tt)) :: head ++
       TaskBegin n :: map InTask calls ++
       [TaskEnd n (Fulfilled tt);
        Await (QueryAll alertSelector (Fulfilled []));
        submitting;
        Await (WaitForNetworkIdle 3000 (Rejected e))])
| shape_next n names head calls r rest :
    forallb around_task head = true ->
    shape names r rest ->
    shape (n :: names) r
      (navigating :: Await (WaitForNetworkIdle 3000 (Fulfilled tt)) :: head ++
       completed_step n calls ++ rest).

End Shape.

(** ** Properties of a log *)

(** Every page task but the first starts after the task before it ran
    to its end, was accepted by the validation check, and its submission
    settled. *)
Definition sequenced (options : OnboardOptions) (tr : list event) : Prop :=
  forall pre n' post,
    tr = pre ++ TaskBegin n' :: post ->
    begins pre = [] \/
    exists pre0 n calls mid,
      pre = pre0 ++ completed_step options n calls ++ mid /\ begins mid = [].

(** Every page task starts after a wait for the network to be idle for
    3000 ms has resolved, with nothing but bookkeeping in between. *)
Definition waits_before (tr : list event) : Prop :=
  forall pre n post,
    tr = pre ++ TaskBegin n :: post ->
    exists a b,
      pre = a ++ Await (WaitForNetworkIdle 3000 (Fulfilled tt)) :: b /\
      forallb around_task b = true.

(** A page task that ran to its end and was accepted by the validation
    check is followed at once by a wait for the network to be idle for
    3000 ms. *)
Definition waits_after (options : OnboardOptions) (tr : list event) : Prop :=
  forall pre n post,
    tr = pre ++ TaskEnd n (Fulfilled tt) ::
                Await (QueryAll alertSelector (Fulfilled [])) :: post ->
    exists r post',
      post = submitting options :: Await (WaitForNetworkIdle 3000 r) :: post'.

(** Every wait asks for an idle time of 3000 ms. *)
Definition waits_3000 (tr : list event) : Prop :=
  forall t r, Await (WaitForNetworkIdle t r) ∈ tr -> t = 3000.

Definition wait_3000 (e : event) : bool :=
  match e with
  | Await (WaitForNetworkIdle t _) => bool_decide (t = 3000)
  | _ => true
  end.


(** ** The test matrix of [test/onboard.test.ts] *)

(** [cartesianProduct(...allEntries)], as written: a [reduce] over the
    entry lists that extends every partial combination by every entry,
    the inner [reduce] flattening the result. *)
Definition cartesianProduct {T} (allEntries : list (list T)) : list (list T) :=
  fold_left
    (fun results entries =>
       fold_left (fun subResults result => subResults ++ result)
         (map (fun result => map (fun entry => result ++ [entry]) entries)
              results)
         [])
    allEntries [[]].

(** The combinations by recursion on the entry lists: one entry of the
    first list in front of a combination of the others. *)
Fixpoint combinations {T} (allEntries : list (list T)) : list (list T) :=
  match allEntries with
  | [] => [[]]
  | entries :: rest =>
      concat (map (fun entry => map (cons entry) (combinations rest)) entries)
  end.

(** Truthiness of a value. *)
Definition value_truthy (v : value) : bool :=
  match v with
  | VUndefined => false
  | VStr s => negb (String.eqb s "")
  | VObj _ => true
  end.

(** [keys.reduce((acc, key, index) => ..., acc)], from [index] on. *)
Fixpoint reduce_keys (f : object -> string -> nat -> object)
  (keys : list string) (index : nat) (acc : object) : object :=
  match keys with
  | [] => acc
  | key :: keys' => reduce_keys f keys' (S index) (f acc key index)
  end.

(** The [params] that [itMatrix] builds for one combination: a key gets
    the value at its index when that value is truthy. *)
Definition params_of (keys : list string) (combination : list value) : object :=
  reduce_keys
    (fun acc key index =>
       match combination !! index with
       | Some v => if value_truthy v then <[key := v]> acc else acc
       | None => acc
       end)
    keys 0%nat ∅.

(** [input[key]] on an object given by its properties in order. *)
Definition property (input : list (string * list value)) (key : string)
  : list value :=
  match list_find (fun kv => kv.1 = key) input with
  | Some (_, (_, entries)) => entries
  | None => []
  end.

(** The tests that [itMatrix(fn, input)] registers, each with its name
    and the parameters [fn] is called with; [input] lists the keys of
    the matrix in order, each with its values. *)
Definition itMatrix (stringify : object -> string)
  (input : list (string * list value)) : list (string * object) :=
  let keys := input.*1 in
  let values := map (property input) keys in
  let combinations := cartesianProduct values in
  map (fun combination =>
         let params := params_of keys combination in
         (stringify params, params))
      combinations.

(** ** What the loop over the pages may log *)

(** The events [fillOutPages] can produce: everything but launching and
    closing the browser, opening and loading the page, awaiting the site
    test, reading the location and showing an alert. *)
Definition in_pages (e : event) : bool :=
  match e with
  | Await (Launch _ _) | Await (Close _) | Await (NewPage _)
  | Await (SetExtraHTTPHeaders _ _) | Await (Goto _ _)
  | Await (IsOnStripePage _) | Await (Alert _ _)
  | Await (LocationHref _) | NoAwait (LocationHref _) => false
  | _ => true
  end.

(** ** The protocol of a page step, on the outside world *)

(** What one turn of the loop of [fillOutPages] (lines 225 to 257 of
    [src/onboard.ts]) does to the world outside, call by call. *)

Section Protocol.

Context {W : Type} (world : World W) (context : FlowContext).

(** The heading of the page is read: [page.$("h1")] resolves, and so
    does the read of the text of the element found, if there is one. *)
Definition heading_read (w w' : W) : Prop :=
  exists headingElement w1,
    page_query world "h1" w = (Fulfilled headingElement, w1) /\
    match headingElement with
    | Some el =>
        exists headingText,
          element_textContent world el w1 = (Fulfilled headingText, w')
    | None => w' = w1
    end.

(** The reading of the heading is rejected with [e]. *)
Definition heading_fails (w : W) (e : exn) (w' : W) : Prop :=
  page_query world "h1" w = (Rejected e, w') \/
  exists el w1,
    page_query world "h1" w = (Fulfilled (Some el), w1) /\
    element_textContent world el w1 = (Rejected e, w').

(** What comes before a page task (lines 226 to 237): the wait for the
    network to be idle for 3000 ms resolves, the site test is made (its
    outcome is not looked at), and the heading is read. *)
Definition before_task (w w' : W) : Prop :=
  exists w1 onStripe w2,
    page_waitForNetworkIdle world 3000 w = (Fulfilled tt, w1) /\
    isOnStripePage world context w1 = (onStripe, w2) /\
    heading_read w2 w'.

(** What comes after a page task that passes (lines 243 to 256): the
    query for elements of role alert finds none, and the wait for the
    network to be idle for 3000 ms resolves. *)
Definition after_task (w w' : W) : Prop :=
  exists w1,
    page_queryAll world alertSelector w = (Fulfilled [], w1) /\
    page_waitForNetworkIdle world 3000 w1 = (Fulfilled tt, w').

(** The step of a page task carried out in full, from [w] to [w']:
    what comes before it, the task itself, which returns (lines 239 to
    241), and what comes after it. *)
Definition passes (t : task) (w w' : W) : Prop :=
  exists w1 w2 calls,
    before_task w w1 /\
    task_run t context w1 = (Fulfilled tt, w2, calls) /\
    after_task w2 w'.

(** The steps of a list of page tasks carried out in full, one after
    the other, each from the world the one before it left. *)
Inductive carried_out : list task -> W -> W -> Prop :=
| carried_nil w : carried_out [] w w
| carried_cons t rest w w1 w' :
    passes t w w1 -> carried_out rest w1 w' -> carried_out (t :: rest) w w'.

(** The texts of the alerts found are read, and the error that is
    thrown is [e] (lines 244 to 251). *)
Definition alerts_error (hs : list handle) (w : W) (e : exn) (w' : W) : Prop :=
  exists rs reads,
    Promise_all
      (map (fun el => await (fun r => Await (TextContent el r))
                            (element_textContent world el)) hs) w
    = (rs, w', reads) /\
    e = match rs with
        | Fulfilled errorMessages => Error (validation_message errorMessages)
        | Rejected e' => e'
        end.


(** The step of a page task stops with the error [e], leaving the world
    [w']: the wait before it is rejected, or the reading of the heading,
    or the task itself, or the query for alerts, or alerts are found,
    or the wait after it is rejected. *)
Inductive stops (t : task) (w : W) (e : exn) (w' : W) : Prop :=
| stops_wait_before :
    page_waitForNetworkIdle world 3000 w = (Rejected e, w') ->
    stops t w e w'
| stops_heading w1 onStripe w2 :
    page_waitForNetworkIdle world 3000 w = (Fulfilled tt, w1) ->
    isOnStripePage world context w1 = (onStripe, w2) ->
    heading_fails w2 e w' ->
    stops t w e w'
| stops_task w1 calls :
    before_task w w1 ->
    task_run t context w1 = (Rejected e, w', calls) ->
    stops t w e w'
| stops_check w1 w2 calls :
    before_task w w1 ->
    task_run t context w1 = (Fulfilled tt, w2, calls) ->
    page_queryAll world alertSelector w2 = (Rejected e, w') ->
    stops t w e w'
| stops_alerts w1 w2 calls hs w3 :
    before_task w w1 ->
    task_run t context w1 = (Fulfilled tt, w2, calls) ->
    page_queryAll world alertSelector w2 = (Fulfilled hs, w3) ->
    hs <> [] ->
    alerts_error hs w3 e w' ->
    stops t w e w'
| stops_wait_after w1 w2 calls w3 :
    before_task w w1 ->
    task_run t context w1 = (Fulfilled tt, w2, calls) ->
    page_queryAll world alertSelector w2 = (Fulfilled [], w3) ->
    page_waitForNetworkIdle world 3000 w3 = (Rejected e, w') ->
    stops t w e w'.

End Protocol.

(** The head of [fillOutFlow] (lines 132 to 165) went well: the browser
    was launched, the page opened, its headers set and the address
    loaded. *)
Definition bootstrapped {W} (world : World W) (options : OnboardOptions)
  (w w' : W) : Prop :=
  exists w1 w2 w3,
    launch world
      {| launch_headless := default true (headless options);
         launch_width := 900; launch_height := 1000; launch_slowMo := 0;
         launch_args := ["--lang=en-US,en"] |} w = (Fulfilled tt, w1) /\
    browser_newPage world w1 = (Fulfilled tt, w2) /\
    page_setExtraHTTPHeaders world [("Accept-Language", "en-US")] w2
    = (Fulfilled tt, w3) /\
    page_goto world (url options) w3 = (Fulfilled tt, w').

(** The context that [onboard] hands on (lines 54 to 72): the options
    with their defaults filled in and the merged values. *)
Definition onboard_context (faker : Faker) (options : OnboardOptions)
  : FlowContext :=
  {| context_options :=
       {| headless := Some (default true (headless options));
          silent := Some (default true (silent options));
          values := Some (onboard_values faker options);
          url := url options;
          debug := debug options |};
     context_values := onboard_values faker options |}.

(** * Running the monad *)

Section Running.

Context {W : Type}.

Lemma bind_inv {E A B} (m : M W E A) (k : A -> M W E B) w r w' tr :
  bind m k w = (r, w', tr) ->
  (exists e, m w = (Rejected e, w', tr) /\ r = Rejected e) \/
  (exists a w1 t1 t2,
     m w = (Fulfilled a, w1, t1) /\ k a w1 = (r, w', t2) /\ tr = t1 ++ t2).
Proof.
  unfold bind. destruct (m w) as [[[a|e] w1] t1].
  - destruct (k a w1) as [[r2 w2] t2] eqn:Hk. intros [= <- <- <-].
    right. by exists a, w1, t1, t2.
  - intros [= <- <- <-]. left. by exists e.
Qed.

Lemma bind_fulfilled {E A B} (m : M W E A) (k : A -> M W E B) w a w1 t1 :
  m w = (Fulfilled a, w1, t1) ->
  bind m k w = ((k a w1).1.1, (k a w1).1.2, t1 ++ (k a w1).2).
Proof. unfold bind. intros ->. by destruct (k a w1) as [[r2 w2] t2]. Qed.

Lemma bind_rejected {E A B} (m : M W E A) (k : A -> M W E B) w e w1 t1 :
  m w = (Rejected e, w1, t1) -> bind m k w = (Rejected e, w1, t1).
Proof. unfold bind. by intros ->. Qed.

Lemma await_inv {E A} (mk : outcome A -> E) (f : act W A) w r w' tr :
  await mk f w = (r, w', tr) -> f w = (r, w') /\ tr = [mk r].
Proof. unfold await. destruct (f w) as [r1 w1]. by intros [= <- <- <-]. Qed.

Lemma await_run {E A} (mk : outcome A -> E) (f : act W A) w r w' :
  f w = (r, w') -> await mk f w = (r, w', [mk r]).
Proof. unfold await. by intros ->. Qed.

Lemma no_await_inv {E A} (mk : outcome A -> E) (f : act W A) w r w' tr :
  no_await mk f w = (r, w', tr) ->
  exists s, f w = (s, w') /\ r = Fulfilled (Promise s) /\ tr = [mk s].
Proof.
  unfold no_await. destruct (f w) as [r1 w1]. intros [= <- <- <-]. by exists r1.
Qed.

Lemma try_catch_fulfilled {E A} (m : M W E A) (h : exn -> M W E A) w a w1 t1 :
  m w = (Fulfilled a, w1, t1) -> try_catch m h w = (Fulfilled a, w1, t1).
Proof. unfold try_catch. by intros ->. Qed.

Lemma try_catch_rejected {E A} (m : M W E A) (h : exn -> M W E A) w e w1 t1 :
  m w = (Rejected e, w1, t1) ->
  try_catch m h w = ((h e w1).1.1, (h e w1).1.2, t1 ++ (h e w1).2).
Proof. unfold try_catch. intros ->. by destruct (h e w1) as [[r2 w2] t2]. Qed.

Lemma oraPromise_inv {A} (action : M W event A) options w r w' tr :
  oraPromise action options w = (r, w', tr) ->
  exists t, action w = (r, w', t) /\ tr = Ora options :: t.
Proof.
  unfold oraPromise, bind, emit. destruct (action w) as [[r1 w1] t1].
  intros [= <- <- <-]. by exists t1.
Qed.

Lemma oraPromise_run {A} (action : M W event A) options w :
  oraPromise action options w =
  ((action w).1.1, (action w).1.2, Ora options :: (action w).2).
Proof. unfold oraPromise, bind, emit. by destruct (action w) as [[r1 w1] t1]. Qed.

Lemma run_task_inv (t : task) context (w : W) r w' tr :
  run_task t context w = (r, w', tr) ->
  exists calls,
    task_run t context w = (r, w', calls) /\
    tr = TaskBegin (task_name t) :: map InTask calls ++ [TaskEnd (task_name t) r].
Proof.
  unfold run_task. destruct (task_run t context w) as [[r1 w1] calls].
  intros [= <- <- <-]. by exists calls.
Qed.

End Running.

(** * Default values and their merge with the caller's *)

Section Defaults.

Context (faker : Faker).

Lemma getDefaultOnboardValues_not_DK country :
  country <> Some (VStr "DK") ->
  getDefaultOnboardValues faker country = defaultValues faker.
Proof.
  intros Hne. unfold getDefaultOnboardValues.
  destruct country as [[| c | o]|]; case_decide as Hdk; try done.
  congruence.
Qed.

Lemma spread_overrides (a b : object) k v :
  b !! k = Some v -> spread a b !! k = Some v.
Proof. intros Hb. unfold spread. by apply lookup_union_Some_l. Qed.

Lemma spread_keeps (a b : object) k :
  b !! k = None -> spread a b !! k = a !! k.
Proof. intros Hb. unfold spread. by rewrite lookup_union_r. Qed.

End Defaults.

Section DefaultsTheorem.

Context {W : Type} (world : World W).

Lemma onboard_unfold (options : OnboardOptions) :
  onboard world options =
  fillOutFlow world
    {| headless := Some (default true (headless options));
       silent := Some (default true (silent options));
       values := Some (onboard_values (faker world) options);
       url := url options;
       debug := debug options |}
    (flow_of world (onboard_values (faker world) options)).
Proof. unfold onboard. destruct options as [[h|] [s|] v u d]; reflexivity. Qed.

(** C10: whatever the country argument, [getDefaultOnboardValues]
    returns a record whose [country] is ["US"]; for ["DK"] the record
    has no [address.state] and no [routing_number] and carries the
    Danish phone, company phone, zip, city and account number; for any
    other argument it is the US defaults unchanged; and [onboard] fills
    the forms with these defaults overridden by every value the caller
    provides. *)
Theorem default_values_and_merge :
  let faker := faker world in
  (forall country,
     getDefaultOnboardValues faker country !! "country" = Some (VStr "US")) /\
  (let dk := getDefaultOnboardValues faker (Some (VStr "DK")) in
   address_field dk "state" = None /\
   dk !! "routing_number" = None /\
   dk !! "phone" = Some (VStr "00000000") /\
   dk !! "company_phone" = Some (VStr "00000000") /\
   address_field dk "zip" = Some "8000" /\
   address_field dk "city" = Some "Aarhus" /\
   dk !! "account_number" = Some (VStr "DK5000400440116243")) /\
  (forall country,
     country <> Some (VStr "DK") ->
     getDefaultOnboardValues faker country = defaultValues faker) /\
  (address_field (defaultValues faker) "state" = Some "CA" /\
   defaultValues faker !! "routing_number" = Some (VStr "110000000") /\
   defaultValues faker !! "phone" = Some (VStr "0000000000") /\
   defaultValues faker !! "company_phone" = Some (VStr "0000000000") /\
   address_field (defaultValues faker) "zip" = Some "90210" /\
   address_field (defaultValues faker) "city" = Some "Beverly Hills" /\
   defaultValues faker !! "account_number" = Some (VStr "000123456789")) /\
  (forall options,
     exists options',
       onboard world options =
       fillOutFlow world options'
         (flow_of world (onboard_values faker options)) /\
       values options' = Some (onboard_values faker options)) /\
  (forall options given k v,
     values options = Some given ->
     given !! k = Some v ->
     onboard_values faker options !! k = Some v) /\
  (forall options k,
     default ∅ (values options) !! k = None ->
     onboard_values faker options !! k =
     getDefaultOnboardValues faker (values_country options) !! k).
Proof.
  intros fk.
  split; [| split; [| split; [| split; [| split; [| split]]]]].
  - intros country. unfold getDefaultOnboardValues.
    case_decide; by vm_compute.
  - by vm_compute.
  - apply getDefaultOnboardValues_not_DK.
  - by vm_compute.
  - intros options. eexists. split; [apply onboard_unfold | reflexivity].
  - intros options given k v Hgiven Hk. unfold onboard_values.
    rewrite Hgiven. by apply spread_overrides.
  - intros options k Hk. unfold onboard_values. by apply spread_keeps.
Qed.

End DefaultsTheorem.

(** * The shape of the log of [fillOutPages] *)

Section ShapeOfPages.

Context {W : Type} (world : World W).

Lemma Promise_all_reads (hs : list handle) w r w' tr :
  Promise_all
    (map (fun el => await (fun r => Await (TextContent el r))
                          (element_textContent world el)) hs) w = (r, w', tr) ->
  exists texts failed,
    alert_reads hs tr texts failed /\
    r = match failed with Some e => Rejected e | None => Fulfilled texts end.
Proof.
  revert w r w' tr. induction hs as [|h hs IH]; intros w r w' tr Hrun; simpl in Hrun.
  - injection Hrun as <- <- <-. exists [], None. split; [constructor | done].
  - unfold await at 1 in Hrun.
    destruct (element_textContent world h w) as [r1 w1].
    destruct (Promise_all _ w1) as [[rs w2] t2] eqn:Hrest.
    apply IH in Hrest as (texts & failed & Hreads & ->).
    injection Hrun as <- <- <-.
    eexists _, _. split; [apply (reads_cons h hs r1 _ _ _ Hreads) |].
    by destruct r1, failed.
Qed.

(** Closes a goal [shape o names r tr] with a constructor instance whose
    log is [tr] up to the bracketing of the appends. *)
Ltac shape_is lem :=
  refine (eq_rect _ (shape _ _ _) lem _ _);
  unfold completed_step, navigating, submitting;
  cbn [app map]; rewrite <- ?app_assoc, ?app_nil_r; cbn [app]; reflexivity.

Lemma fillOutPages_shape context pageTasks w r w' tr :
  fillOutPages world context pageTasks w = (r, w', tr) ->
  shape (context_options context) (map task_name pageTasks) r tr.
Proof.
  revert w r w' tr.
  induction pageTasks as [|task pageTasks IH]; intros w r w' tr Hrun.
  - injection Hrun as <- <- <-. constructor.
  - change (fillOutPages world context (task :: pageTasks))
      with (fillOutPages_step world context task
              (fillOutPages world context pageTasks)) in Hrun.
    unfold fillOutPages_step in Hrun.
    apply bind_inv in Hrun as [(e & Hwait & ->) | ([] & w1 & t1 & t2 & Hwait & Hrun & ->)];
      apply oraPromise_inv in Hwait as (t & Hwait & ->);
      apply await_inv in Hwait as [Hwait ->].
    { by apply shape_not_started. }
    apply bind_inv in Hrun as [(e & Hsite & ->) | (p & w2 & t1 & t3 & Hsite & Hrun & ->)];
      apply no_await_inv in Hsite as (s & Hsite & Hp & ->); [done |].
    injection Hp as ->.
    change (negb (promise_truthy (Promise s))) with false in Hrun.
    cbv iota in Hrun.
    apply bind_inv in Hrun
      as [(e & Hh1 & ->) | (headingElement & w3 & t1 & t4 & Hh1 & Hrun & ->)];
      apply await_inv in Hh1 as [Hh1 ->].
    { by apply shape_not_started. }
    apply bind_inv in Hrun
      as [(e & Htext & ->) | (headingText & w4 & t1 & t5 & Htext & Hrun & ->)].
    { destruct headingElement as [el|]; [| done].
      apply await_inv in Htext as [Htext ->]. by apply shape_not_started. }
    assert (forall o,
              forallb around_task
                (NoAwait (IsOnStripePage s) ::
                 Await (Query "h1" (Fulfilled headingElement)) ::
                 t1 ++ [Ora o]) = true) as Hhead.
    { intros o. destruct headingElement as [el|].
      - apply await_inv in Htext as [Htext ->]. done.
      - by injection Htext as <- <- <-. }
    clear Htext.
    set (label := getOraOptions (context_options context)
                    (default "" (String_trim world <$> headingText))) in *.
    apply bind_inv in Hrun
      as [(e & Htask & ->) | ([] & w5 & t6 & t7 & Htask & Hrun & ->)];
      apply oraPromise_inv in Htask as (t8 & Htask & ->);
      apply run_task_inv in Htask as (calls & Htask & ->).
    { shape_is (shape_task_rejected (context_options context) (task_name task)
                  (map task_name pageTasks) _ calls e (Hhead label)). }
    apply bind_inv in Hrun
      as [(e & Hcheck & ->) | (validationErrors & w6 & t9 & t10 & Hcheck & Hrun & ->)];
      apply await_inv in Hcheck as [Hcheck ->].
    { shape_is (shape_check_rejected (context_options context) (task_name task)
                  (map task_name pageTasks) _ calls e (Hhead label)). }
    destruct validationErrors as [|el els]; cbn [length Nat.ltb Nat.leb] in Hrun.
    + apply bind_inv in Hrun
        as [(e & Hsettle & ->) | ([] & w7 & t11 & t12 & Hsettle & Hrun & ->)];
        apply oraPromise_inv in Hsettle as (t13 & Hsettle & ->);
        apply await_inv in Hsettle as [Hsettle ->].
      { shape_is (shape_unsettled (context_options context) (task_name task)
                    (map task_name pageTasks) _ calls e (Hhead label)). }
      apply IH in Hrun.
      shape_is (shape_next (context_options context) (task_name task)
                  (map task_name pageTasks) _ calls r t12 (Hhead label) Hrun).
    + apply bind_inv in Hrun
        as [(e & Hreads & ->) | (errorMessages & w7 & t11 & t12 & Hreads & Hrun & ->)];
        apply Promise_all_reads in Hreads as (texts & failed & Hreads & Hr).
      * destruct failed as [e'|]; [| done]. injection Hr as ->.
        shape_is (shape_invalid (context_options context) (task_name task)
                    (map task_name pageTasks) _ calls (el :: els) _ texts (Some e')
                    (Hhead label) ltac:(done) Hreads).
      * destruct failed as [e'|]; [done |]. injection Hr as ->.
        injection Hrun as <- <- <-.
        shape_is (shape_invalid (context_options context) (task_name task)
                    (map task_name pageTasks) _ calls (el :: els) _ texts None
                    (Hhead label) ltac:(done) Hreads).
Qed.

End ShapeOfPages.

(** * Lists of events *)

Section Splitting.

Context {A : Type}.

Lemma app_eq_split_l (a b pre : list A) x post :
  a ++ b = pre ++ x :: post -> x ∉ a ->
  exists pre', pre = a ++ pre' /\ b = pre' ++ x :: post.
Proof.
  revert pre. induction a as [|y a IH]; intros pre Heq Hx.
  - by exists pre.
  - destruct pre as [|z pre]; simplify_eq/=.
    + set_solver.
    + destruct (IH pre) as (pre' & -> & ->); [done | set_solver |].
      by exists pre'.
Qed.

Lemma app_eq_split_r (a b pre : list A) x post :
  a ++ b = pre ++ x :: post -> x ∉ b ->
  exists post', a = pre ++ x :: post' /\ post = post' ++ b.
Proof.
  revert pre. induction a as [|y a IH]; intros pre Heq Hx.
  - simpl in Heq. subst b. set_solver.
  - destruct pre as [|z pre]; simplify_eq/=.
    + by exists a.
    + destruct (IH pre) as (post' & -> & ->); [done | done |].
      by exists post'.
Qed.

End Splitting.

Lemma begins_app a b : begins (a ++ b) = begins a ++ begins b.
Proof. apply omap_app. Qed.

Lemma begins_in_task calls : begins (map InTask calls) = [].
Proof. by induction calls. Qed.

Lemma begins_cons e tr :
  begins (e :: tr) =
  match e with TaskBegin n => [n] | _ => [] end ++ begins tr.
Proof. by destruct e. Qed.

Lemma begins_nil : begins [] = [].
Proof. done. Qed.

Ltac begins_simpl :=
  repeat (rewrite begins_app || rewrite begins_cons ||
          rewrite begins_in_task || rewrite begins_nil);
  cbn [app].

Lemma begins_none tr n : begins tr = [] -> TaskBegin n ∉ tr.
Proof.
  induction tr as [|e tr IH]; [set_solver |].
  destruct e; simpl; try done; intros H; apply not_elem_of_cons; auto.
Qed.

Lemma around_task_begins tr : forallb around_task tr = true -> begins tr = [].
Proof.
  induction tr as [|e tr IH]; [done |]. simpl.
  intros [He Htr]%andb_prop. destruct e; try done; simpl; auto.
Qed.

Lemma outside_pages_begins tr : forallb outside_pages tr = true -> begins tr = [].
Proof.
  induction tr as [|e tr IH]; [done |]. simpl.
  intros [He Htr]%andb_prop. destruct e; try done; simpl; auto.
Qed.

Lemma alert_reads_around hs tr texts failed :
  alert_reads hs tr texts failed -> forallb around_task tr = true.
Proof. induction 1; [done |]. done. Qed.

(** * Sequencing of the page tasks *)

Section Sequencing.

Context (options : OnboardOptions).

Lemma begins_completed_step n calls :
  begins (completed_step options n calls) = [n].
Proof. unfold completed_step, submitting. by begins_simpl. Qed.

Lemma no_split_quiet tr pre n post :
  begins tr = [] -> tr <> pre ++ TaskBegin n :: post.
Proof.
  intros Hq ->. rewrite begins_app in Hq. simpl in Hq.
  by destruct (begins pre).
Qed.

Lemma sequenced_quiet tr : begins tr = [] -> sequenced options tr.
Proof. intros Hq pre n post Heq. by destruct (no_split_quiet tr pre n post). Qed.

Lemma sequenced_app_l a tr :
  begins a = [] -> sequenced options tr -> sequenced options (a ++ tr).
Proof.
  intros Ha Htr pre n' post Heq.
  apply app_eq_split_l in Heq as (pre' & -> & Heq); [| by apply begins_none].
  destruct (Htr _ _ _ Heq) as [Hq | (pre0 & n & calls & mid & -> & Hmid)].
  - left. by rewrite begins_app, Ha, Hq.
  - right. exists (a ++ pre0), n, calls, mid. by rewrite <- app_assoc.
Qed.

Lemma sequenced_app_r tr b :
  sequenced options tr -> begins b = [] -> sequenced options (tr ++ b).
Proof.
  intros Htr Hb pre n' post Heq.
  apply app_eq_split_r in Heq as (post' & -> & ->); [| by apply begins_none].
  by apply (Htr pre n' post').
Qed.

Lemma sequenced_single n tail :
  begins tail = [] -> sequenced options (TaskBegin n :: tail).
Proof.
  intros Ht pre n' post Heq. destruct pre as [|e pre]; [by left |].
  injection Heq as <- Heq. by destruct (no_split_quiet tail pre n' post).
Qed.

Lemma sequenced_next n calls rest :
  sequenced options rest ->
  sequenced options (completed_step options n calls ++ rest).
Proof.
  intros Hrest pre n' post Heq. destruct pre as [|e pre]; [by left |].
  unfold completed_step in Heq. injection Heq as <- Heq.
  rewrite <- app_assoc in Heq.
  apply app_eq_split_l in Heq as (p1 & -> & Heq);
    [| apply begins_none, begins_in_task].
  cbn [app] in Heq.
  do 4 (destruct p1 as [|? p1]; [done | injection Heq as <- Heq]).
  right.
  destruct (Hrest _ _ _ Heq) as [Hq | (pre0 & m & calls' & mid & -> & Hmid)].
  - exists [], n, calls, p1. split; [| done].
    unfold completed_step. cbn [app]. by rewrite <- app_assoc.
  - exists (completed_step options n calls ++ pre0), m, calls', mid.
    split; [| done]. unfold completed_step at 2. cbn [app].
    by rewrite <- !app_assoc.
Qed.

Lemma shape_sequenced names r tr :
  shape options names r tr -> sequenced options tr.
Proof.
  induction 1 as [| n names head e Hh | n names head calls e Hh
                  | n names head calls e Hh
                  | n names head calls hs reads texts failed Hh Hhs Hreads
                  | n names head calls e Hh
                  | n names head calls r rest Hh Hrest IH];
    try (apply (sequenced_app_l [_; _]); [done |];
         apply sequenced_app_l; [by apply around_task_begins |]).
  - by apply sequenced_quiet.
  - by apply sequenced_quiet, around_task_begins.
  - apply sequenced_single. by begins_simpl.
  - apply sequenced_single. by begins_simpl.
  - apply sequenced_single. begins_simpl.
    apply around_task_begins. by eapply alert_reads_around.
  - apply sequenced_single. by begins_simpl.
  - by apply sequenced_next.
Qed.

Lemma shape_begins names r tr :
  shape options names r tr ->
  begins tr `prefix_of` names /\ (r = Fulfilled tt -> begins tr = names).
Proof.
  induction 1 as [| n names head e Hh | n names head calls e Hh
                  | n names head calls e Hh
                  | n names head calls hs reads texts failed Hh Hhs Hreads
                  | n names head calls e Hh
                  | n names head calls r rest Hh Hrest IH];
    try apply around_task_begins in Hh; unfold navigating;
    begins_simpl; rewrite ?Hh; cbn [app].
  - done.
  - split; [apply prefix_nil | done].
  - split; [apply prefix_cons, prefix_nil | done].
  - split; [apply prefix_cons, prefix_nil | done].
  - apply alert_reads_around, around_task_begins in Hreads. rewrite Hreads.
    split; [apply prefix_cons, prefix_nil |]. by destruct failed.
  - unfold submitting. begins_simpl.
    split; [apply prefix_cons, prefix_nil | done].
  - rewrite begins_completed_step. cbn [app]. destruct IH as [IH1 IH2].
    split; [by apply prefix_cons | intros Hr; by rewrite IH2].
Qed.

(** *** Waits before the page tasks *)

Lemma waits_before_quiet tr : begins tr = [] -> waits_before tr.
Proof. intros Hq pre n post Heq. by destruct (no_split_quiet tr pre n post). Qed.

Lemma waits_before_app a b :
  waits_before a -> waits_before b -> waits_before (a ++ b).
Proof.
  intros Ha Hb pre n post Heq.
  apply app_eq_inv in Heq as [(k & -> & Hk) | (k & -> & Hk)].
  - destruct k as [|e k]; simplify_eq/=.
    + destruct (Hb [] n post eq_refl) as (a' & b' & Hnil & _).
      by destruct a'.
    + by apply (Ha pre n k).
  - destruct (Hb _ _ _ Hk) as (a' & b' & -> & Hb').
    exists (a ++ a'), b'. by rewrite <- app_assoc.
Qed.

Lemma waits_before_start head n :
  forallb around_task head = true ->
  waits_before
    (navigating options :: Await (WaitForNetworkIdle 3000 (Fulfilled tt)) ::
     head ++ [TaskBegin n]).
Proof.
  intros Hh pre n' post Heq.
  change (?x :: ?y :: head ++ ?l) with ((x :: y :: head) ++ l) in Heq.
  apply app_eq_split_l in Heq as (pre' & -> & Heq).
  2:{ apply begins_none. unfold navigating. begins_simpl.
      by apply around_task_begins. }
  destruct pre' as [|e pre']; [| by destruct pre'].
  exists [navigating options], head. by rewrite app_nil_r.
Qed.

Lemma shape_waits_before names r tr :
  shape options names r tr -> waits_before tr.
Proof.
  assert (forall head n tail,
            forallb around_task head = true -> waits_before tail ->
            waits_before
              (navigating options ::
               Await (WaitForNetworkIdle 3000 (Fulfilled tt)) ::
               head ++ TaskBegin n :: tail)) as Hstart.
  { intros head n tail Hh Ht.
    change (?x :: ?y :: head ++ TaskBegin n :: tail)
      with ((x :: y :: head) ++ [TaskBegin n] ++ tail).
    rewrite app_assoc. apply waits_before_app; [| done].
    by apply waits_before_start. }
  induction 1 as [| n names head e Hh | n names head calls e Hh
                  | n names head calls e Hh
                  | n names head calls hs reads texts failed Hh Hhs Hreads
                  | n names head calls e Hh
                  | n names head calls r rest Hh Hrest IH].
  - by apply waits_before_quiet.
  - by apply waits_before_quiet, around_task_begins.
  - apply Hstart; [done |]. apply waits_before_quiet. by begins_simpl.
  - apply Hstart; [done |]. apply waits_before_quiet. by begins_simpl.
  - apply Hstart; [done |]. apply waits_before_quiet. begins_simpl.
    apply around_task_begins. by eapply alert_reads_around.
  - apply Hstart; [done |]. apply waits_before_quiet.
    unfold submitting. by begins_simpl.
  - unfold completed_step. cbn [app]. apply Hstart; [done |].
    rewrite <- app_assoc. apply waits_before_app.
    { apply waits_before_quiet, begins_in_task. }
    apply (waits_before_app [_; _; _; _]); [| done].
    apply waits_before_quiet. unfold submitting. by begins_simpl.
Qed.

(** *** The idle time of the waits *)

Lemma wait_3000_all tr : forallb wait_3000 tr = true -> waits_3000 tr.
Proof.
  intros Hall t r Hin. rewrite forallb_forall in Hall.
  apply list_elem_of_In, Hall in Hin. simpl in Hin. by case_bool_decide.
Qed.

Lemma around_task_wait_3000 tr :
  forallb around_task tr = true -> forallb wait_3000 tr = true.
Proof.
  induction tr as [|e tr IH]; [done |]. simpl.
  intros [He Htr]%andb_prop. rewrite IH by done.
  destruct e as [| c | c | | |]; try done;
    destruct c; simpl in *; rewrite ?He; done.
Qed.

Lemma in_task_wait_3000 calls : forallb wait_3000 (map InTask calls) = true.
Proof. by induction calls. Qed.

Lemma outside_pages_wait_3000 tr :
  forallb outside_pages tr = true -> forallb wait_3000 tr = true.
Proof.
  induction tr as [|e tr IH]; [done |]. simpl.
  intros [He Htr]%andb_prop. rewrite IH by done.
  destruct e as [| c | c | | |]; try done;
    destruct c; simpl in *; rewrite ?He; done.
Qed.

Lemma shape_wait_3000 names r tr :
  shape options names r tr -> forallb wait_3000 tr = true.
Proof.
  induction 1 as [| n names head e Hh | n names head calls e Hh
                  | n names head calls e Hh
                  | n names head calls hs reads texts failed Hh Hhs Hreads
                  | n names head calls e Hh
                  | n names head calls r rest Hh Hrest IH];
    try apply around_task_wait_3000 in Hh;
    try apply alert_reads_around, around_task_wait_3000 in Hreads;
    unfold completed_step, navigating, submitting; try done;
    repeat first [ rewrite forallb_app | rewrite Hh | rewrite Hreads
                 | rewrite IH | rewrite in_task_wait_3000
                 | progress cbn [forallb app wait_3000 andb] ];
    try done; by case_bool_decide.
Qed.

(** *** Walking through a log up to a given event *)

Lemma not_in_around x l :
  forallb around_task l = true -> around_task x = false -> x ∉ l.
Proof.
  intros Hall Hx Hin. rewrite forallb_forall in Hall.
  apply list_elem_of_In, Hall in Hin. congruence.
Qed.

Lemma not_in_in_task x calls : (forall c, x <> InTask c) -> x ∉ map InTask calls.
Proof.
  intros Hx Hin. apply list_elem_of_In, in_map_iff in Hin as (c & Hc & _).
  by destruct (Hx c).
Qed.

Lemma around_no_split l pre x post :
  forallb around_task l = true -> around_task x = false ->
  l <> pre ++ x :: post.
Proof.
  intros Hall Hx ->. eapply not_in_around; [done.. |]. set_solver.
Qed.

Ltac walk Heq :=
  repeat first
    [ solve [ exfalso; eapply around_no_split; [ | | exact Heq];
              [eassumption | reflexivity] ]
    | match type of Heq with
      | [] = ?pre ++ _ :: _ => by destruct pre
      | (?a ++ ?b) ++ ?c = _ =>
          rewrite <- (app_assoc a b c) in Heq; cbn [app] in Heq
      | ?h ++ ?l = ?pre ++ ?x :: ?post =>
          let pre' := fresh "pre" in
          apply app_eq_split_l in Heq as (pre' & -> & Heq);
          [| solve [ eapply not_in_around; [eassumption | reflexivity]
                   | apply not_in_in_task; intros ?; discriminate ] ]
      | ?e :: ?l = ?pre ++ ?x :: ?post =>
          let Hhit := fresh "Hhit" in
          let Hpost := fresh "Hpost" in
          destruct pre as [|? ?];
          [ cbn [app] in Heq; injection Heq as Hhit Hpost;
            try discriminate Hhit
          | cbn [app] in Heq; injection Heq as <- Heq ]
      end ].

(** *** Waits after the page tasks *)

Lemma shape_waits_after names r tr :
  shape options names r tr -> waits_after options tr.
Proof.
  induction 1 as [| n names head e Hh | n names head calls e Hh
                  | n names head calls e Hh
                  | n names head calls hs reads texts failed Hh Hhs Hreads
                  | n names head calls e Hh
                  | n names head calls r rest Hh Hrest IH];
    intros pre m post Heq;
    try (apply alert_reads_around in Hreads);
    unfold completed_step, navigating, submitting in Heq;
    cbn [app] in Heq; walk Heq; simplify_eq.
  - by eexists _, _.
  - by eexists _, _.
  - by eapply IH.
Qed.

(** *** The validation check *)



Lemma in_task_not_begin c tr : begins (InTask c :: tr) = begins tr.
Proof. done. Qed.

End Sequencing.

Lemma shape_ext o1 o2 names r tr :
  (forall t, getOraOptions o1 t = getOraOptions o2 t) ->
  shape o1 names r tr -> shape o2 names r tr.
Proof.
  intros Hext.
  induction 1 as [| n names head e Hh | n names head calls e Hh
                  | n names head calls e Hh
                  | n names head calls hs reads texts failed Hh Hhs Hreads
                  | n names head calls e Hh
                  | n names head calls r rest Hh Hrest IH];
    unfold completed_step, navigating, submitting; rewrite ?Hext.
  - constructor.
  - by apply shape_not_started.
  - by apply shape_task_rejected.
  - by apply shape_check_rejected.
  - by eapply shape_invalid.
  - by apply shape_unsettled.
  - by apply shape_next.
Qed.

(** * The log of a whole flow *)

Section FlowLog.

Context {W : Type} (world : World W).

Lemma closeBrowser_inv options w r w' tr :
  closeBrowser world options w = (r, w', tr) ->
  browser_close world w = (r, w') /\
  tr = [Ora (getOraOptions options "Closing browser"); Await (Close r)].
Proof.
  unfold closeBrowser. intros (t & Hclose & ->)%oraPromise_inv.
  by apply await_inv in Hclose as [Hclose ->].
Qed.

Lemma flow_try_log context pageTasks w r w' tr :
  flow_try world context pageTasks w = (r, w', tr) ->
  exists names rp pages tail,
    tr = pages ++ tail /\
    shape (context_options context) names rp pages /\
    forallb outside_pages tail = true /\
    (forall ts, pageTasks = Some ts -> names = map task_name (all_pages world ts)) /\
    (r = Fulfilled tt -> rp = Fulfilled tt).
Proof.
  unfold flow_try. intros Hrun.
  apply bind_inv in Hrun as [(e & Hp & ->) | (pages & w1 & t1 & t2 & Hp & Hrun & ->)].
  { destruct pageTasks as [ts|]; [done |]. injection Hp as <- <-.
    exists [], (Fulfilled tt), [], []. split_and!; try done. constructor. }
  destruct pageTasks as [ts|]; [| done]. injection Hp as <- <- <-.
  apply bind_inv in Hrun as [(e & Hp & ->) | ([] & w2 & t3 & t4 & Hp & Hrun & ->)];
    apply fillOutPages_shape in Hp.
  - eexists _, _, _, []. rewrite app_nil_r. split_and!; try done.
    by intros ts' [= <-].
  - apply closeBrowser_inv in Hrun as [Hclose ->].
    eexists _, _, t3, _. split_and!; try done. by intros ts' [= <-].
Qed.

Lemma flow_catch_log context e w r w' tr :
  flow_catch world context e w = (r, w', tr) ->
  forallb outside_pages tr = true /\
  exists s, Await (IsOnStripePage s) ∈ tr.
Proof.
  unfold flow_catch. intros Hrun.
  apply bind_inv in Hrun as [(e' & Hs & ->) | (b & w1 & t1 & t2 & Hs & Hrun & ->)];
    apply await_inv in Hs as [Hs ->].
  { split; [done |]. eexists. by left. }
  destruct b; cbn [negb] in Hrun.
  2:{ injection Hrun as <- <- <-. split; [done |]. eexists. by left. }
  destruct (debug_truthy (debug (context_options context))).
  - apply bind_inv in Hrun as [(e' & Hl & ->) | (l & w2 & t3 & t4 & Hl & Hrun & ->)];
      apply no_await_inv in Hl as (sl & Hl & Hp & ->); [done |].
    apply await_inv in Hrun as [Hrun ->].
    split; [done |]. eexists. by left.
  - apply bind_inv in Hrun as [(e' & Hc & ->) | ([] & w2 & t3 & t4 & Hc & Hrun & ->)];
      apply closeBrowser_inv in Hc as [Hc ->].
    + split; [done |]. eexists. by left.
    + injection Hrun as <- <- <-. split; [done |]. eexists. by left.
Qed.

Lemma flow_try_catch_log context pageTasks w r w' tr :
  flow_try_catch world context pageTasks w = (r, w', tr) ->
  exists names rp pages tail,
    tr = pages ++ tail /\
    shape (context_options context) names rp pages /\
    forallb outside_pages tail = true /\
    (forall ts, pageTasks = Some ts -> names = map task_name (all_pages world ts)) /\
    (r = Fulfilled tt ->
     (forall s, Await (IsOnStripePage s) ∉ tail) -> rp = Fulfilled tt).
Proof.
  unfold flow_try_catch, try_catch. intros Hrun.
  destruct (flow_try world context pageTasks w) as [[[[]|e] w1] t1] eqn:Htry;
    apply flow_try_log in Htry
      as (names & rp & pages & tail & -> & Hshape & Htail & Hnames & Hrp).
  - injection Hrun as <- <- <-. exists names, rp, pages, tail.
    split_and!; try done. auto.
  - destruct (flow_catch world context e w1) as [[r2 w2] t2] eqn:Hcatch.
    injection Hrun as <- <- <-.
    apply flow_catch_log in Hcatch as [Hout [s Hs]].
    exists names, rp, pages, (tail ++ t2). rewrite app_assoc.
    split_and!; try done.
    + by rewrite forallb_app, Htail, Hout.
    + intros _ Hno. destruct (Hno s). set_solver.
Qed.

Lemma begin_nothing (options : OnboardOptions) (pageTasks : option (list task)) :
  exists names rp,
    shape options names rp [] /\
    (forall ts, pageTasks = Some ts -> names = map task_name (all_pages world ts)).
Proof.
  destruct pageTasks as [ts|].
  - exists (map task_name (all_pages world ts)), (Rejected (Error "")).
    split; [by apply shape_not_started | by intros ts' [= <-]].
  - exists [], (Fulfilled tt). split; [constructor | done].
Qed.

Lemma fillOutFlow_log options pageTasks w r w' tr :
  fillOutFlow world options pageTasks w = (r, w', tr) ->
  exists names rp boot pages tail,
    tr = boot ++ pages ++ tail /\
    forallb outside_pages boot = true /\
    shape options names rp pages /\
    forallb outside_pages tail = true /\
    (forall ts, pageTasks = Some ts -> names = map task_name (all_pages world ts)) /\
    (r = Fulfilled tt ->
     (forall s, Await (IsOnStripePage s) ∉ tr) -> rp = Fulfilled tt).
Proof.
  unfold fillOutFlow. intros Hrun.
  destruct (begin_nothing options pageTasks) as (names0 & rp0 & Hshape0 & Hnames0).
  destruct (values options) as [vals|].
  2:{ injection Hrun as <- <- <-.
      exists names0, rp0, [], [], []. split_and!; done. }
  apply bind_inv in Hrun as [(e & Hl & ->) | ([] & w1 & t1 & t2 & Hl & Hrun & ->)];
    apply oraPromise_inv in Hl as (t & Hl & ->);
    apply await_inv in Hl as [Hl ->].
  { eexists names0, rp0, _, [], []. rewrite !app_nil_r. split_and!; done. }
  apply bind_inv in Hrun as [(e & Hn & ->) | ([] & w2 & t3 & t4 & Hn & Hrun & ->)];
    apply oraPromise_inv in Hn as (t & Hn & ->).
  { eexists names0, rp0, _, [], []. rewrite !app_nil_r. split_and!; try done.
    apply bind_inv in Hn as [(e' & Hp & _) | ([] & w2 & t3 & t4 & Hp & Hn & ->)];
      apply await_inv in Hp as [Hp ->]; [done |].
    apply bind_inv in Hn as [(e' & Hh & _) | ([] & w3 & t5 & t6 & Hh & Hn & ->)];
      apply await_inv in Hh as [Hh ->]; [done |].
    by apply await_inv in Hn as [Hn ->]. }
  assert (forallb outside_pages t = true) as Hnav.
  { apply bind_inv in Hn as [(e' & Hp & [=]) | ([] & w3 & t5 & t6 & Hp & Hn & ->)].
    apply await_inv in Hp as [Hp ->].
    apply bind_inv in Hn as [(e' & Hh & [=]) | ([] & w4 & t7 & t8 & Hh & Hn & ->)].
    apply await_inv in Hh as [Hh ->].
    by apply await_inv in Hn as [Hn ->]. }
  apply flow_try_catch_log in Hrun
    as (names & rp & pages & tail & -> & Hshape & Htail & Hnames & Hrp).
  rewrite (app_assoc _ _ (pages ++ tail)).
  eexists names, rp, _, pages, tail. split; [reflexivity | split_and!; try done].
  intros Hr Hno. apply Hrp; [done |]. intros s Hs. apply (Hno s).
  rewrite !elem_of_app. auto.
Qed.

Lemma onboard_log options w r w' tr :
  onboard world options w = (r, w', tr) ->
  exists names rp boot pages tail,
    tr = boot ++ pages ++ tail /\
    forallb outside_pages boot = true /\
    shape options names rp pages /\
    forallb outside_pages tail = true /\
    (forall flow,
       allFlows world
         (property_key (onboard_values (faker world) options !! "business_type"))
       = Some flow ->
       names =
       ["fillOutGetPaidByPage"; "fillOutVerificationCodePage";
        "fillOutTellUsAboutYourBusinessPage"] ++ flow.*1 ++
       ["fillOutSummaryPage"]) /\
    (r = Fulfilled tt ->
     (forall s, Await (IsOnStripePage s) ∉ tr) -> rp = Fulfilled tt).
Proof.
  rewrite onboard_unfold. intros Hrun.
  apply fillOutFlow_log in Hrun
    as (names & rp & boot & pages & tail & -> & Hboot & Hshape & Htail & Hnames & Hrp).
  exists names, rp, boot, pages, tail. split_and!; try done.
  - eapply shape_ext; [| exact Hshape]. intros t. by destruct options as [h [s|] v u d].
  - intros flow Hflow. rewrite (Hnames (map flow_task flow)).
    + unfold all_pages. rewrite !map_app. cbn [map task_name].
      f_equal. f_equal. f_equal. f_equal. rewrite map_map. by apply map_ext.
    + unfold flow_of. by rewrite Hflow.
Qed.

End FlowLog.


Lemma not_in_outside x l :
  forallb outside_pages l = true -> outside_pages x = false -> x ∉ l.
Proof.
  intros Hall Hx Hin. rewrite forallb_forall in Hall.
  apply list_elem_of_In, Hall in Hin. congruence.
Qed.

Lemma waits_after_whole options boot pages tail :
  forallb outside_pages boot = true ->
  forallb outside_pages tail = true ->
  waits_after options pages ->
  waits_after options (boot ++ pages ++ tail).
Proof.
  intros Hboot Htail Hpages pre n post Heq.
  apply app_eq_split_l in Heq as (pre' & -> & Heq);
    [| by apply not_in_outside].
  apply app_eq_split_r in Heq as (post' & Heq & Hpost);
    [| by apply not_in_outside].
  destruct post' as [|e post'].
  { destruct tail as [|e tail]; [done |]. injection Hpost as <- _. done. }
  injection Hpost as <- ->.
  destruct (Hpages _ _ _ Heq) as (r & post'' & ->).
  by exists r, (post'' ++ tail).
Qed.

(** * The page steps on the outside world *)

Section ProtocolRuns.

Context {W : Type} (world : World W) (context : FlowContext).

Lemma passes_run t next w w1 :
  passes world context t w w1 ->
  (fillOutPages_step world context t next w).1 = (next w1).1.
Proof.
  intros (wa & wb & calls &
          (w2 & s & w3 & Hwait & Hsite & (h & w4 & Hh1 & Htext)) &
          Htask & (w5 & Hcheck & Hsettle)).
  unfold fillOutPages_step, oraPromise, waitForNavigation, bind, emit, await,
    no_await, run_task.
  rewrite Hwait. cbv beta iota zeta. rewrite Hsite. cbv beta iota zeta.
  cbn [promise_truthy negb]. rewrite Hh1. cbv beta iota zeta.
  destruct h as [el|].
  - destruct Htext as [headingText Htext]. rewrite Htext. cbv beta iota zeta.
    rewrite Htask. cbv beta iota zeta. rewrite Hcheck. cbv beta iota zeta.
    cbn [length Nat.ltb Nat.leb]. rewrite Hsettle. cbv beta iota zeta.
    by destruct (next w1) as [[? ?] ?].
  - subst wa. unfold ret. cbv beta iota zeta.
    rewrite Htask. cbv beta iota zeta. rewrite Hcheck. cbv beta iota zeta.
    cbn [length Nat.ltb Nat.leb]. rewrite Hsettle. cbv beta iota zeta.
    by destruct (next w1) as [[? ?] ?].
Qed.

Lemma before_task_run t next w w1 :
  before_task world context w w1 ->
  exists label,
    (fillOutPages_step world context t next w).1 =
    ((oraPromise (run_task t context) label;;
      let* validationErrors :=
        await (fun r => Await (QueryAll alertSelector r))
              (page_queryAll world alertSelector) in
      if (0 <? length validationErrors)%nat then
        let* errorMessages :=
          Promise_all
            (map (fun el => await (fun r => Await (TextContent el r))
                                  (element_textContent world el))
                 validationErrors) in
        throw (Error (validation_message errorMessages))
      else
        oraPromise (waitForNavigation world Await)
          (getOraOptions (context_options context) "Submitting...");;
        next) w1).1.
Proof.
  intros (w2 & s & w3 & Hwait & Hsite & (h & w4 & Hh1 & Htext)).
  unfold fillOutPages_step.
  unfold oraPromise at 1. unfold waitForNavigation at 1.
  unfold bind at 1 2 3 4 5. unfold emit at 1. unfold await at 1.
  rewrite Hwait. cbv beta iota zeta.
  unfold no_await at 1. rewrite Hsite. cbv beta iota zeta.
  cbn [promise_truthy negb]. unfold await at 1. rewrite Hh1. cbv beta iota zeta.
  destruct h as [el|].
  - destruct Htext as [headingText Htext]. unfold await at 1.
    rewrite Htext. cbv beta iota zeta.
    exists (getOraOptions (context_options context)
              (default "" (String_trim world <$> headingText))).
    by destruct (bind _ _ w1) as [[? ?] ?].
  - subst w1. unfold ret at 1. cbv beta iota zeta.
    exists (getOraOptions (context_options context)
              (default "" (String_trim world <$> None))).
    by destruct (bind _ _ w4) as [[? ?] ?].
Qed.


Lemma stops_run t next w e w' :
  stops world context t w e w' ->
  (fillOutPages_step world context t next w).1 = (Rejected e, w').
Proof.
  intros [Hwait | w1 s w2 Hwait Hsite Hheading | w1 calls Hbefore Htask
          | w1 w2 calls Hbefore Htask Hcheck
          | w1 w2 calls hs w3 Hbefore Htask Hcheck Hhs (rs & reads & Hreads & ->)
          | w1 w2 calls w3 Hbefore Htask Hcheck Hsettle].
  - unfold fillOutPages_step, oraPromise, waitForNavigation, bind, emit, await.
    by rewrite Hwait.
  - unfold fillOutPages_step, oraPromise, waitForNavigation, bind, emit, await,
      no_await.
    rewrite Hwait. cbv beta iota zeta. rewrite Hsite. cbv beta iota zeta.
    cbn [promise_truthy negb].
    destruct Hheading as [Hh1 | (el & w3 & Hh1 & Htext)].
    + by rewrite Hh1.
    + rewrite Hh1. cbv beta iota zeta. by rewrite Htext.
  - destruct (before_task_run t next _ _ Hbefore) as [label ->].
    unfold oraPromise, run_task, bind, emit. by rewrite Htask.
  - destruct (before_task_run t next _ _ Hbefore) as [label ->].
    unfold oraPromise, run_task, bind, emit, await. rewrite Htask.
    cbv beta iota zeta. by rewrite Hcheck.
  - destruct (before_task_run t next _ _ Hbefore) as [label ->].
    unfold oraPromise, run_task, bind, emit, await at 1, throw. rewrite Htask.
    cbv beta iota zeta. rewrite Hcheck. cbv beta iota zeta.
    destruct hs as [|el els]; [done |]. cbn [length Nat.ltb Nat.leb].
    rewrite Hreads. by destruct rs.
  - destruct (before_task_run t next _ _ Hbefore) as [label ->].
    unfold oraPromise, waitForNavigation, run_task, bind, emit, await.
    rewrite Htask. cbv beta iota zeta. rewrite Hcheck. cbv beta iota zeta.
    cbn [length Nat.ltb Nat.leb]. by rewrite Hsettle.
Qed.

Lemma fillOutPages_step_inv t next w r w' tr :
  fillOutPages_step world context t next w = (r, w', tr) ->
  (exists w1 t1 t2,
     passes world context t w w1 /\ next w1 = (r, w', t2) /\
     tr = t1 ++ t2 /\ begins t1 = [task_name t]) \/
  (exists e,
     r = Rejected e /\ stops world context t w e w' /\
     (begins tr = [] \/ begins tr = [task_name t])).
Proof.
  unfold fillOutPages_step. intros Hrun.
  apply bind_inv in Hrun as [(e & Hwait & ->) | ([] & w1 & t1 & t2 & Hwait & Hrun & ->)];
    apply oraPromise_inv in Hwait as (t0 & Hwait & ->);
    apply await_inv in Hwait as [Hwait ->].
  { right. exists e. split_and!; [done | by apply stops_wait_before | by left]. }
  apply bind_inv in Hrun as [(e & Hsite & ->) | (p & w2 & t1 & t3 & Hsite & Hrun & ->)];
    apply no_await_inv in Hsite as (s & Hsite & Hp & ->); [done |].
  injection Hp as ->.
  change (negb (promise_truthy (Promise s))) with false in Hrun.
  cbv iota in Hrun.
  apply bind_inv in Hrun
    as [(e & Hh1 & ->) | (headingElement & w3 & t1 & t4 & Hh1 & Hrun & ->)];
    apply await_inv in Hh1 as [Hh1 ->].
  { right. exists e. split_and!; [done | | by left].
    eapply stops_heading; [done.. | by left]. }
  apply bind_inv in Hrun
    as [(e & Htext & ->) | (headingText & w4 & t1 & t5 & Htext & Hrun & ->)].
  { destruct headingElement as [el|]; [| done].
    apply await_inv in Htext as [Htext ->].
    right. exists e. split_and!; [done | | by left].
    eapply stops_heading; [done.. |]. right. by exists el, w3. }
  assert (before_task world context w w4 /\ begins t1 = []) as [Hbefore Ht1].
  { destruct headingElement as [el|].
    - apply await_inv in Htext as [Htext ->]. split; [| done].
      exists w1, s, w2. split_and!; try done.
      exists (Some el), w3. split; [done |]. by exists headingText.
    - injection Htext as <- <- <-. split; [| done].
      exists w1, s, w2. split_and!; try done. by exists None, w3. }
  clear Htext.
  set (label := getOraOptions (context_options context)
                  (default "" (String_trim world <$> headingText))) in *.
  apply bind_inv in Hrun
    as [(e & Htask & ->) | ([] & w5 & t6 & t7 & Htask & Hrun & ->)];
    apply oraPromise_inv in Htask as (t8 & Htask & ->);
    apply run_task_inv in Htask as (calls & Htask & ->).
  { right. exists e. split_and!; [done | by eapply stops_task |].
    right. begins_simpl. by rewrite Ht1. }
  apply bind_inv in Hrun
    as [(e & Hcheck & ->) | (validationErrors & w6 & t9 & t10 & Hcheck & Hrun & ->)];
    apply await_inv in Hcheck as [Hcheck ->].
  { right. exists e. split_and!; [done | by eapply stops_check |].
    right. begins_simpl. by rewrite Ht1. }
  destruct validationErrors as [|el els]; cbn [length Nat.ltb Nat.leb] in Hrun.
  - apply bind_inv in Hrun
      as [(e & Hsettle & ->) | ([] & w7 & t11 & t12 & Hsettle & Hrun & ->)];
      apply oraPromise_inv in Hsettle as (t13 & Hsettle & ->);
      apply await_inv in Hsettle as [Hsettle ->].
    { right. exists e. split_and!; [done | by eapply stops_wait_after |].
      right. begins_simpl. by rewrite Ht1. }
    left.
    exists w7,
      ([Ora (getOraOptions (context_options context) "Navigating...");
        Await (WaitForNetworkIdle 3000 (Fulfilled tt))] ++
       [NoAwait (IsOnStripePage s)] ++
       [Await (Query "h1" (Fulfilled headingElement))] ++
       t1 ++
       (Ora label :: TaskBegin (task_name t) ::
        map InTask calls ++ [TaskEnd (task_name t) (Fulfilled tt)]) ++
       [Await (QueryAll alertSelector (Fulfilled []))] ++
       [Ora (getOraOptions (context_options context) "Submitting...");
        Await (WaitForNetworkIdle 3000 (Fulfilled tt))]),
      t12.
    split_and!.
    + exists w4, w5, calls. split_and!; [done.. |]. by exists w6.
    + done.
    + cbn [app]. rewrite <- !app_assoc. cbn [app]. rewrite <- !app_assoc.
      reflexivity.
    + begins_simpl. by rewrite Ht1.
  - right.
    apply bind_inv in Hrun
      as [(e & Hreads & ->) | (errorMessages & w7 & t11 & t12 & Hreads & Hrun & ->)].
    + exists e. split_and!; [done | |].
      * eapply stops_alerts; [done.. |]. by eexists _, _.
      * apply Promise_all_reads in Hreads as (texts & failed & Hreads & _).
        apply alert_reads_around, around_task_begins in Hreads.
        right. begins_simpl. by rewrite Ht1, Hreads.
    + injection Hrun as <- <- <-.
      exists (Error (validation_message errorMessages)). split_and!; [done | |].
      * eapply stops_alerts; [done.. |]. by eexists _, _.
      * apply Promise_all_reads in Hreads as (texts & failed & Hreads & _).
        apply alert_reads_around, around_task_begins in Hreads.
        right. begins_simpl. by rewrite Ht1, Hreads.
Qed.

Lemma carried_out_run done rest w wk :
  carried_out world context done w wk ->
  (fillOutPages world context (done ++ rest) w).1 =
  (fillOutPages world context rest wk).1.
Proof.
  induction 1 as [w | t done w w1 wk Hpass Hdone IH]; [done |].
  cbn [app].
  change (fillOutPages world context (t :: done ++ rest))
    with (fillOutPages_step world context t
            (fillOutPages world context (done ++ rest))).
  by rewrite (passes_run _ _ _ _ Hpass).
Qed.

Lemma carried_out_stops done t rest w wk e w' :
  carried_out world context done w wk ->
  stops world context t wk e w' ->
  (fillOutPages world context (done ++ t :: rest) w).1 = (Rejected e, w').
Proof.
  intros Hdone Hstops. rewrite (carried_out_run _ _ _ _ Hdone).
  change (fillOutPages world context (t :: rest))
    with (fillOutPages_step world context t (fillOutPages world context rest)).
  by apply stops_run.
Qed.

Lemma fillOutPages_inv pageTasks w r w' tr :
  fillOutPages world context pageTasks w = (r, w', tr) ->
  exists done wk,
    carried_out world context done w wk /\
    map task_name done `prefix_of` begins tr /\
    (r = Fulfilled tt /\ done = pageTasks /\ w' = wk /\
     begins tr = map task_name pageTasks \/
     exists t rest e,
       pageTasks = done ++ t :: rest /\ r = Rejected e /\
       stops world context t wk e w' /\
       begins tr `prefix_of` map task_name (done ++ [t])).
Proof.
  revert w r w' tr.
  induction pageTasks as [|t pageTasks IH]; intros w r w' tr Hrun.
  - injection Hrun as <- <- <-. exists [], w.
    split_and!; [constructor | done | by left].
  - change (fillOutPages world context (t :: pageTasks))
      with (fillOutPages_step world context t
              (fillOutPages world context pageTasks)) in Hrun.
    apply fillOutPages_step_inv in Hrun
      as [(w1 & t1 & t2 & Hpass & Hnext & -> & Ht1)
         | (e & -> & Hstops & Hbegins)].
    + apply IH in Hnext as (done & wk & Hdone & Hprefix & Hrest).
      exists (t :: done), wk. rewrite begins_app, Ht1. cbn [app map].
      split_and!; [by econstructor | by apply prefix_cons |].
      destruct Hrest as [(-> & -> & -> & Hall)
                        | (t' & rest & e & -> & -> & Hstops & Hupto)].
      * left. by rewrite Hall.
      * right. exists t', rest, e. split_and!; try done.
        by apply prefix_cons.
    + exists [], w. split_and!; [constructor | apply prefix_nil |].
      right. exists t, pageTasks, e. split_and!; try done. cbn [app map].
      destruct Hbegins as [-> | ->]; [apply prefix_nil | done].
Qed.

Lemma flow_catch_off_site e w w2 :
  isOnStripePage world context w = (Fulfilled false, w2) ->
  flow_catch world context e w =
  (Fulfilled tt, w2, [Await (IsOnStripePage (Fulfilled false))]).
Proof.
  intros Hsite. unfold flow_catch, bind, await, ret. by rewrite Hsite.
Qed.

Lemma flow_catch_rethrows e w w2 rc w3 :
  isOnStripePage world context w = (Fulfilled true, w2) ->
  debug_truthy (debug (context_options context)) = false ->
  browser_close world w2 = (rc, w3) ->
  flow_catch world context e w =
  (match rc with Fulfilled _ => Rejected e | Rejected e' => Rejected e' end, w3,
   [Await (IsOnStripePage (Fulfilled true));
    Ora (getOraOptions (context_options context) "Closing browser");
    Await (Close rc)]).
Proof.
  intros Hsite Hdebug Hclose.
  unfold flow_catch, closeBrowser, oraPromise, bind, await, emit, throw.
  rewrite Hsite. cbn [negb]. rewrite Hdebug, Hclose. by destruct rc as [[]|e'].
Qed.

Lemma flow_catch_debug e w w2 l w3 s w4 :
  isOnStripePage world context w = (Fulfilled true, w2) ->
  debug_truthy (debug (context_options context)) = true ->
  getCurrentUrl world w2 = (l, w3) ->
  window_alert world
    (debug_message world (context_options context) (context_values context)
       e (Promise l)) w3 = (s, w4) ->
  flow_catch world context e w =
  (s, w4,
   [Await (IsOnStripePage (Fulfilled true));
    NoAwait (LocationHref l);
    Await (Alert (debug_message world (context_options context)
                    (context_values context) e (Promise l)) s)]).
Proof.
  intros Hsite Hdebug Hurl Halert.
  unfold flow_catch, bind, await, no_await.
  rewrite Hsite. cbn [negb]. rewrite Hdebug, Hurl. cbv beta iota zeta.
  by rewrite Halert.
Qed.

Lemma flow_try_catch_caught pageTasks w e w1 :
  (flow_try world context pageTasks w).1 = (Rejected e, w1) ->
  (flow_try_catch world context pageTasks w).1 =
  (flow_catch world context e w1).1.
Proof.
  unfold flow_try_catch, try_catch.
  destruct (flow_try world context pageTasks w) as [[r1 w1'] t1].
  intros [= -> ->]. by destruct (flow_catch world context e w1) as [[? ?] ?].
Qed.

Lemma flow_try_stops pageTasks done t rest w wk e w' :
  all_pages world pageTasks = done ++ t :: rest ->
  carried_out world context done w wk ->
  stops world context t wk e w' ->
  (flow_try world context (Some pageTasks) w).1 = (Rejected e, w').
Proof.
  intros Hpages Hdone Hstops.
  pose proof (carried_out_stops _ _ rest _ _ _ _ Hdone Hstops) as Hrun.
  rewrite <- Hpages in Hrun.
  unfold flow_try, bind, ret.
  destruct (fillOutPages world context (all_pages world pageTasks) w)
    as [[r1 w1] t1].
  by injection Hrun as -> ->.
Qed.

Lemma flow_try_catch_pages pageTasks w r w' tr :
  flow_try_catch world context (Some pageTasks) w = (r, w', tr) ->
  exists rp wp tp tail,
    fillOutPages world context (all_pages world pageTasks) w = (rp, wp, tp) /\
    tr = tp ++ tail /\ begins tail = [].
Proof.
  unfold flow_try_catch, try_catch, flow_try, bind, ret.
  destruct (fillOutPages world context (all_pages world pageTasks) w)
    as [[[[]|e] w1] t1] eqn:Hpages; cbn [app].
  - destruct (closeBrowser world (context_options context) w1)
      as [[[[]|e] w2] t2] eqn:Hclose;
      apply closeBrowser_inv in Hclose as [Hclose ->].
    + intros [= <- <- <-]. by eexists _, _, _, _.
    + destruct (flow_catch world context e w2) as [[r3 w3] t3] eqn:Hcatch.
      apply flow_catch_log in Hcatch as [Hout _].
      apply outside_pages_begins in Hout.
      intros [= <- <- <-]. eexists _, _, _, _. split; [done |].
      rewrite <- app_assoc. split; [done |]. by rewrite begins_app, Hout.
  - destruct (flow_catch world context e w1) as [[r3 w3] t3] eqn:Hcatch.
    apply flow_catch_log in Hcatch as [Hout _].
    apply outside_pages_begins in Hout.
    intros [= <- <- <-]. by eexists _, _, _, _.
Qed.



End ProtocolRuns.

Lemma fillOutFlow_bootstrapped {W} (world : World W) options vals pageTasks
  w w0 r w' tr :
  values options = Some vals ->
  bootstrapped world options w w0 ->
  fillOutFlow world options pageTasks w = (r, w', tr) ->
  exists boot t,
    tr = boot ++ t /\ begins boot = [] /\
    flow_try_catch world
      {| context_options := options; context_values := vals |} pageTasks w0
    = (r, w', t).
Proof.
  intros Hvalues (w1 & w2 & w3 & Hl & Hn & Hh & Hg). unfold fillOutFlow.
  rewrite Hvalues. intros Hrun.
  apply bind_inv in Hrun as [(e & Hl' & ->) | ([] & w1' & t1 & t2 & Hl' & Hrun & ->)];
    apply oraPromise_inv in Hl' as (t & Hl' & ->);
    apply await_inv in Hl' as [Hl' ->]; rewrite Hl in Hl'; [done |].
  injection Hl' as <-.
  apply bind_inv in Hrun as [(e & Hn' & ->) | ([] & w2' & t3 & t4 & Hn' & Hrun & ->)];
    apply oraPromise_inv in Hn' as (t & Hn' & ->).
  { apply bind_inv in Hn' as [(e' & Hp & _) | ([] & w2' & t3 & t4 & Hp & Hn' & ->)];
      apply await_inv in Hp as [Hp ->]; rewrite Hn in Hp; [done |].
    injection Hp as <-.
    apply bind_inv in Hn' as [(e' & Hp & _) | ([] & w3' & t5 & t6 & Hp & Hn' & ->)];
      apply await_inv in Hp as [Hp ->]; rewrite Hh in Hp; [done |].
    injection Hp as <-.
    apply await_inv in Hn' as [Hn' ->]. rewrite Hg in Hn'. done. }
  apply bind_inv in Hn' as [(e' & Hp & [=]) | ([] & w2'' & t5 & t6 & Hp & Hn' & ->)].
  apply await_inv in Hp as [Hp ->]. rewrite Hn in Hp. injection Hp as <-.
  apply bind_inv in Hn' as [(e' & Hp & [=]) | ([] & w3' & t7 & t8 & Hp & Hn' & ->)].
  apply await_inv in Hp as [Hp ->]. rewrite Hh in Hp. injection Hp as <-.
  apply await_inv in Hn' as [Hn' ->]. rewrite Hg in Hn'. injection Hn' as <-.
  eexists _, t4. split; [by rewrite app_assoc |]. split; [done | done].
Qed.

Lemma onboard_pages {W} (world : World W) options w r w' tr w0 flow :
  onboard world options w = (r, w', tr) ->
  allFlows world
    (property_key (onboard_values (faker world) options !! "business_type"))
  = Some flow ->
  bootstrapped world
    (context_options (onboard_context (faker world) options)) w w0 ->
  exists rp wp tp,
    fillOutPages world (onboard_context (faker world) options)
      (all_pages world (map flow_task flow)) w0 = (rp, wp, tp) /\
    begins tr = begins tp.
Proof.
  rewrite onboard_unfold. intros Hrun Hflow Hboot.
  eapply fillOutFlow_bootstrapped in Hrun
    as (boot & t & -> & Hquiet & Hrun); [| reflexivity | exact Hboot].
  unfold flow_of in Hrun. rewrite Hflow in Hrun.
  apply flow_try_catch_pages in Hrun as (rp & wp & tp & tail & Hpages & -> & Htail).
  exists rp, wp, tp. split; [exact Hpages |].
  by rewrite !begins_app, Hquiet, Htail, app_nil_r.
Qed.

(** * The engine *)

Section Claims.

Context {W : Type} (world : World W).

(** C7: [onboard] runs the page tasks in the order get-paid-by,
    verification code, tell-us-about-your-business, then the tasks that
    [allFlows] holds for the merged [business_type], then the summary
    page; running a task of the flow is calling its function on the
    context.  In the log, the tasks started are always a prefix of that
    sequence, and the whole of it when the flow resolves without an
    error having been caught; a task that is not the first is started
    only after the task before it has returned, the check for validation
    errors after it has found none, and the wait for the network after
    it has resolved.  On the outside world, once the page is loaded: a
    first part of the sequence is carried out in full, each task from
    the world that the wait after the task before it left; either that
    is the whole sequence, and the loop over the pages resolves in the
    world the last wait left, or the step of the next task stops with
    an error, and then no later task has any part in the outcome. *)
Theorem page_tasks_run_in_order options w r w' tr flow :
  onboard world options w = (r, w', tr) ->
  allFlows world
    (property_key (onboard_values (faker world) options !! "business_type"))
  = Some flow ->
  let context := onboard_context (faker world) options in
  let pages :=
    [fillOutGetPaidByPage world; fillOutVerificationCodePage world;
     fillOutTellUsAboutYourBusinessPage world] ++ map flow_task flow ++
    [fillOutSummaryPage world] in
  let names :=
    ["fillOutGetPaidByPage"; "fillOutVerificationCodePage";
     "fillOutTellUsAboutYourBusinessPage"] ++ flow.*1 ++
    ["fillOutSummaryPage"] in
  map task_name pages = names /\
  (forall (step : string * (FlowContext -> act W unit)) c v,
     task_run (flow_task step) c v =
     ((step.2 c v).1, (step.2 c v).2, [FlowTask step.1 (step.2 c v).1])) /\
  begins tr `prefix_of` names /\
  (r = Fulfilled tt ->
   (forall s, Await (IsOnStripePage s) ∉ tr) -> begins tr = names) /\
  (forall pre n' post,
     tr = pre ++ TaskBegin n' :: post ->
     begins pre = [] \/
     exists pre0 n calls mid,
       pre = pre0 ++
             (TaskBegin n :: map InTask calls ++
              [TaskEnd n (Fulfilled tt);
               Await (QueryAll alertSelector (Fulfilled []));
               Ora (getOraOptions options "Submitting...");
               Await (WaitForNetworkIdle 3000 (Fulfilled tt))]) ++ mid /\
       begins mid = []) /\
  (forall w0,
     bootstrapped world (context_options context) w w0 ->
     exists done wk,
       carried_out world context done w0 wk /\
       map task_name done `prefix_of` begins tr /\
       (done = pages /\ begins tr = names /\
        (fillOutPages world context pages w0).1 = (Fulfilled tt, wk) \/
        exists t rest e w1,
          pages = done ++ t :: rest /\
          stops world context t wk e w1 /\
          begins tr `prefix_of` map task_name (done ++ [t]) /\
          forall rest',
            (fillOutPages world context (done ++ t :: rest') w0).1 =
            (Rejected e, w1))).
Proof.
  intros Hrun Hflow context pages names.
  assert (map task_name pages = names) as Hpagenames.
  { unfold pages, names. rewrite !map_app. cbn [map task_name fillOutGetPaidByPage
      fillOutVerificationCodePage fillOutTellUsAboutYourBusinessPage
      fillOutSummaryPage]. do 2 f_equal. rewrite map_map. by apply map_ext. }
  split; [exact Hpagenames |].
  split.
  { intros step ctx w0. unfold flow_task, task_run, await.
    by destruct (step.2 ctx w0). }
  assert (forall w0,
     bootstrapped world (context_options context) w w0 ->
     exists done wk,
       carried_out world context done w0 wk /\
       map task_name done `prefix_of` begins tr /\
       (done = pages /\ begins tr = names /\
        (fillOutPages world context pages w0).1 = (Fulfilled tt, wk) \/
        exists t rest e w1,
          pages = done ++ t :: rest /\
          stops world context t wk e w1 /\
          begins tr `prefix_of` map task_name (done ++ [t]) /\
          forall rest',
            (fillOutPages world context (done ++ t :: rest') w0).1 =
            (Rejected e, w1))) as Hworld.
  { intros w0 Hboot.
    destruct (onboard_pages world _ _ _ _ _ _ _ Hrun Hflow Hboot)
      as (rp & wp & tp & Hpages & ->).
    pose proof Hpages as Hinv.
    apply fillOutPages_inv in Hinv as (done & wk & Hdone & Hprefix & Hrest).
    exists done, wk. split_and!; [done | done |].
    destruct Hrest as [(-> & -> & -> & Hall)
                      | (t & rest & e & Heq & -> & Hstops & Hupto)].
    - left. split_and!; [reflexivity | by rewrite Hall |].
      fold context in Hpages. unfold all_pages in Hpages. fold pages in Hpages.
      by rewrite Hpages.
    - right. exists t, rest, e, wp. split_and!; [exact Heq | done | done |].
      intros rest'. by eapply carried_out_stops. }
  apply onboard_log in Hrun
    as (names' & rp & boot & pgs & tail & -> & Hboot & Hshape & Htail & Hnames & Hrp).
  rewrite (Hnames flow Hflow) in Hshape. fold names in Hshape.
  apply outside_pages_begins in Hboot, Htail.
  destruct (shape_begins _ _ _ _ Hshape) as [Hprefix Hall].
  split_and!; [| | | exact Hworld];
    rewrite ?begins_app, ?Hboot, ?Htail, ?app_nil_r; cbn [app].
  - done.
  - auto.
  - apply sequenced_app_l; [done |]. apply sequenced_app_r; [| done].
    by eapply shape_sequenced.
Qed.

(** C9, amended: a page task is started only after a wait for the
    network to be idle for 3000 ms has resolved; a page task that has
    returned and passed the check for validation errors is followed by
    such a wait, and what comes next starts only when it has resolved;
    a page task that throws, or after which the query for alerts fails
    or finds alerts, is followed by no wait at all.
    In the log of every run of [onboard]: before each start of a task
    there is a resolved wait of 3000 ms, with nothing in between but the
    site test, the reading of the heading and the spinner label; the end
    of a task that returned, followed by an empty query for alerts, is
    followed at once by a wait; and every wait asks for 3000 ms.
    On the outside world, for the step of a task at the head of any
    sequence: when the wait before it is rejected the step ends there
    with that error; when the task throws, the world it left is the
    world the sequence ends in; so it is when the query for alerts is
    rejected or finds alerts, after the texts have been read; and when
    no alert is found, [page.waitForNetworkIdle] is called with 3000 on
    the world the query left: the rest of the sequence runs from the
    world it leaves when it resolves, and the sequence ends with its
    error when it is rejected. *)
Theorem steps_wait_for_network_idle :
  (forall options w r w' tr,
     onboard world options w = (r, w', tr) ->
     (forall pre n post,
        tr = pre ++ TaskBegin n :: post ->
        exists a b,
          pre = a ++ Await (WaitForNetworkIdle 3000 (Fulfilled tt)) :: b /\
          forallb around_task b = true) /\
     (forall pre n post,
        tr = pre ++ TaskEnd n (Fulfilled tt) ::
                    Await (QueryAll alertSelector (Fulfilled [])) :: post ->
        exists s post',
          post = Ora (getOraOptions options "Submitting...") ::
                 Await (WaitForNetworkIdle 3000 s) :: post') /\
     (forall t s, Await (WaitForNetworkIdle t s) ∈ tr -> t = 3000)) /\
  (forall context task pageTasks w,
     (forall e w1,
        page_waitForNetworkIdle world 3000 w = (Rejected e, w1) ->
        fillOutPages world context (task :: pageTasks) w =
        (Rejected e, w1,
         [Ora (getOraOptions (context_options context) "Navigating...");
          Await (WaitForNetworkIdle 3000 (Rejected e))])) /\
     (forall w1,
        before_task world context w w1 ->
        (forall e w2 calls,
           task_run task context w1 = (Rejected e, w2, calls) ->
           (fillOutPages world context (task :: pageTasks) w).1 =
           (Rejected e, w2)) /\
        (forall w2 calls,
           task_run task context w1 = (Fulfilled tt, w2, calls) ->
           (forall e w3,
              page_queryAll world alertSelector w2 = (Rejected e, w3) ->
              (fillOutPages world context (task :: pageTasks) w).1 =
              (Rejected e, w3)) /\
           (forall hs w3,
              page_queryAll world alertSelector w2 = (Fulfilled hs, w3) ->
              hs <> [] ->
              exists e w4,
                alerts_error world hs w3 e w4 /\
                (fillOutPages world context (task :: pageTasks) w).1 =
                (Rejected e, w4)) /\
           (forall w3 s w4,
              page_queryAll world alertSelector w2 = (Fulfilled [], w3) ->
              page_waitForNetworkIdle world 3000 w3 = (s, w4) ->
              (fillOutPages world context (task :: pageTasks) w).1 =
              match s with
              | Fulfilled _ => (fillOutPages world context pageTasks w4).1
              | Rejected e => (Rejected e, w4)
              end)))).
Proof.
  split.
  - intros options w r w' tr Hrun.
    apply onboard_log in Hrun
      as (names & rp & boot & pages & tail & -> & Hboot & Hshape & Htail & _).
    split_and!.
    + apply waits_before_app; [by apply waits_before_quiet, outside_pages_begins |].
      apply waits_before_app; [by eapply shape_waits_before |].
      by apply waits_before_quiet, outside_pages_begins.
    + apply waits_after_whole; [done.. |]. by eapply shape_waits_after.
    + apply wait_3000_all. rewrite !forallb_app.
      rewrite (outside_pages_wait_3000 boot), (outside_pages_wait_3000 tail) by done.
      by rewrite (shape_wait_3000 _ _ _ _ Hshape).
  - intros context task pageTasks w.
    change (fillOutPages world context (task :: pageTasks))
      with (fillOutPages_step world context task
              (fillOutPages world context pageTasks)).
    split.
    { intros e w1 Hwait.
      unfold fillOutPages_step, oraPromise, waitForNavigation, bind, emit, await.
      by rewrite Hwait. }
    intros w1 Hbefore. split.
    { intros e w2 calls Htask. apply stops_run. by eapply stops_task. }
    intros w2 calls Htask. split_and!.
    + intros e w3 Hcheck. apply stops_run. by eapply stops_check.
    + intros hs w3 Hcheck Hhs.
      destruct (Promise_all
                  (map (fun el => await (fun r => Await (TextContent el r))
                                        (element_textContent world el)) hs) w3)
        as [[rs w4] reads] eqn:Hreads.
      assert (alerts_error world hs w3
                match rs with
                | Fulfilled errorMessages =>
                    Error (validation_message errorMessages)
                | Rejected e' => e'
                end w4) as Herror by (by exists rs, reads).
      eexists _, w4. split; [exact Herror |].
      apply stops_run. by eapply stops_alerts.
    + intros w3 [[]|e] w4 Hcheck Hsettle.
      * apply passes_run. exists w1, w2, calls. split_and!; [done.. |].
        by exists w3.
      * apply stops_run. by eapply stops_wait_after.
Qed.


(** C6, amended: when the [try] block is rejected with an error, the
    session is still on the Stripe site and the debug option is falsy,
    [fillOutFlow] calls [browser.close()], once.  When that call
    resolves, the flow is rejected with the error caught, name and
    message unchanged; when it is rejected, the flow is rejected with
    the error of [browser.close()] instead. *)
Theorem failure_closes_and_rethrows context pageTasks w e w1 t1 w2 rc w3 :
  flow_try world context pageTasks w = (Rejected e, w1, t1) ->
  isOnStripePage world context w1 = (Fulfilled true, w2) ->
  debug_truthy (debug (context_options context)) = false ->
  browser_close world w2 = (rc, w3) ->
  flow_try_catch world context pageTasks w =
  (match rc with
   | Fulfilled _ => Rejected e
   | Rejected e' => Rejected e'
   end, w3,
   t1 ++ [Await (IsOnStripePage (Fulfilled true));
          Ora (getOraOptions (context_options context) "Closing browser");
          Await (Close rc)]).
Proof.
  intros Htry Hsite Hdebug Hclose.
  unfold flow_try_catch, try_catch. rewrite Htry.
  by rewrite (flow_catch_rethrows _ _ _ _ _ _ _ Hsite Hdebug Hclose).
Qed.

(** C4, amended: when the [try] block is rejected with an error and
    the site test of the [catch] block finds the session off the Stripe
    site, the error is dropped and the flow resolves.  When it finds the
    session on the site and the debug option is falsy, the browser is
    closed and the flow is rejected: with the caught error if the
    browser closes, with the error of [browser.close()] otherwise.  When
    it finds the session on the site and the debug option is truthy,
    the error is not thrown again: it is shown in an alert, and the flow
    settles as the alert does. *)
Theorem caught_error_off_site_is_dropped context pageTasks w e w1 t1 b w2 :
  flow_try world context pageTasks w = (Rejected e, w1, t1) ->
  isOnStripePage world context w1 = (Fulfilled b, w2) ->
  (b = false ->
   flow_try_catch world context pageTasks w =
   (Fulfilled tt, w2, t1 ++ [Await (IsOnStripePage (Fulfilled false))])) /\
  (b = true ->
   debug_truthy (debug (context_options context)) = false ->
   forall rc w3,
     browser_close world w2 = (rc, w3) ->
     flow_try_catch world context pageTasks w =
     (match rc with
      | Fulfilled _ => Rejected e
      | Rejected e' => Rejected e'
      end, w3,
      t1 ++ [Await (IsOnStripePage (Fulfilled true));
             Ora (getOraOptions (context_options context) "Closing browser");
             Await (Close rc)])) /\
  (b = true ->
   debug_truthy (debug (context_options context)) = true ->
   forall l w3 s w4,
     getCurrentUrl world w2 = (l, w3) ->
     window_alert world
       (debug_message world (context_options context) (context_values context)
          e (Promise l)) w3 = (s, w4) ->
     flow_try_catch world context pageTasks w =
     (s, w4,
      t1 ++ [Await (IsOnStripePage (Fulfilled true));
             NoAwait (LocationHref l);
             Await (Alert (debug_message world (context_options context)
                             (context_values context) e (Promise l)) s)])).
Proof.
  intros Htry Hsite. unfold flow_try_catch, try_catch. rewrite Htry.
  split_and!.
  - intros ->. by rewrite (flow_catch_off_site _ _ _ _ _ Hsite).
  - intros -> Hdebug rc w3 Hclose.
    by rewrite (flow_catch_rethrows _ _ _ _ _ _ _ Hsite Hdebug Hclose).
  - intros -> Hdebug l w3 s w4 Hurl Halert.
    by rewrite (flow_catch_debug _ _ _ _ _ _ _ _ _ Hsite Hdebug Hurl Halert).
Qed.

(** C8, amended: on the summary page, when elements with role status
    are present the task is rejected at once with an error and nothing
    is submitted; when there are none the engine clicks the submit
    button [requirements-index-done-button], and then clicks the confirm
    button of a dialog once if there is one, and nothing if there is
    none.  When the tasks before the summary page have been carried out
    and the summary page shows elements with role status, the [try]
    block is rejected with that error, and the [catch] block decides:
    with the session off the Stripe site the flow resolves; with the
    session on the site and the debug option falsy the browser is closed
    and the flow is rejected, with that error when the browser closes
    and with the error of [browser.close()] otherwise; with the debug
    option truthy the error is shown in an alert and the flow settles
    as the alert does. *)
Theorem summary_page_submits context w statusBoxes w1 :
  page_queryAll world "*[role=status]" w = (Fulfilled statusBoxes, w1) ->
  (statusBoxes <> [] ->
   let e :=
     Error "Fields were missing in summary despite no errors during flow." in
   task_run (fillOutSummaryPage world) context w =
   (Rejected e, w1, [QueryAll "*[role=status]" (Fulfilled statusBoxes)]) /\
   forall pageTasks w0 wk,
     carried_out world context
       ([fillOutGetPaidByPage world; fillOutVerificationCodePage world;
         fillOutTellUsAboutYourBusinessPage world] ++ pageTasks) w0 wk ->
     before_task world context wk w ->
     (flow_try world context (Some pageTasks) w0).1 = (Rejected e, w1) /\
     (forall w2,
        isOnStripePage world context w1 = (Fulfilled false, w2) ->
        (flow_try_catch world context (Some pageTasks) w0).1 =
        (Fulfilled tt, w2)) /\
     (forall w2 rc w3,
        isOnStripePage world context w1 = (Fulfilled true, w2) ->
        debug_truthy (debug (context_options context)) = false ->
        browser_close world w2 = (rc, w3) ->
        (flow_try_catch world context (Some pageTasks) w0).1 =
        (match rc with
         | Fulfilled _ => Rejected e
         | Rejected e' => Rejected e'
         end, w3)) /\
     (forall w2 l w3,
        isOnStripePage world context w1 = (Fulfilled true, w2) ->
        debug_truthy (debug (context_options context)) = true ->
        getCurrentUrl world w2 = (l, w3) ->
        (flow_try_catch world context (Some pageTasks) w0).1 =
        window_alert world
          (debug_message world (context_options context)
             (context_values context) e (Promise l)) w3)) /\
  (statusBoxes = [] ->
   forall w2 dialogConfirmButton w3,
     clickSubmitButton world context (Some "requirements-index-done-button") w1
     = (Fulfilled tt, w2) ->
     page_query world dialogConfirmSelector w2
     = (Fulfilled dialogConfirmButton, w3) ->
     task_run (fillOutSummaryPage world) context w =
     match dialogConfirmButton with
     | Some button =>
         ((element_click world button w3).1, (element_click world button w3).2,
          [QueryAll "*[role=status]" (Fulfilled []);
           Stripe "clickSubmitButton" (Some "requirements-index-done-button")
                  (Fulfilled tt);
           Query dialogConfirmSelector (Fulfilled (Some button));
           Click button (element_click world button w3).1])
     | None =>
         (Fulfilled tt, w3,
          [QueryAll "*[role=status]" (Fulfilled []);
           Stripe "clickSubmitButton" (Some "requirements-index-done-button")
                  (Fulfilled tt);
           Query dialogConfirmSelector (Fulfilled None)])
     end).
Proof.
  intros Hstatus. split.
  - intros Hne e.
    assert (task_run (fillOutSummaryPage world) context w =
            (Rejected e, w1, [QueryAll "*[role=status]" (Fulfilled statusBoxes)]))
      as Htask.
    { unfold fillOutSummaryPage, task_run, stripe, bind, await, throw, ret.
      rewrite Hstatus. by destruct statusBoxes. }
    split; [exact Htask |].
    intros pageTasks w0 wk Hdone Hbefore.
    assert ((flow_try world context (Some pageTasks) w0).1 = (Rejected e, w1))
      as Htry.
    { eapply (flow_try_stops world context pageTasks _ _ []); [| exact Hdone |].
      - unfold all_pages. by rewrite (app_assoc _ pageTasks).
      - by eapply stops_task. }
    split_and!.
    + exact Htry.
    + intros w2 Hsite. rewrite (flow_try_catch_caught _ _ _ _ _ _ Htry).
      by rewrite (flow_catch_off_site _ _ _ _ _ Hsite).
    + intros w2 rc w3 Hsite Hdebug Hclose.
      rewrite (flow_try_catch_caught _ _ _ _ _ _ Htry).
      by rewrite (flow_catch_rethrows _ _ _ _ _ _ _ Hsite Hdebug Hclose).
    + intros w2 l w3 Hsite Hdebug Hurl.
      rewrite (flow_try_catch_caught _ _ _ _ _ _ Htry).
      destruct (window_alert world
                  (debug_message world (context_options context)
                     (context_values context) e (Promise l)) w3)
        as [s w4] eqn:Halert.
      by rewrite (flow_catch_debug _ _ _ _ _ _ _ _ _ Hsite Hdebug Hurl Halert).
  - unfold fillOutSummaryPage, task_run, stripe, bind, await, throw, ret.
    rewrite Hstatus.
    intros -> w2 dialogConfirmButton w3 Hsubmit Hdialog. cbn [length Nat.ltb Nat.leb].
    rewrite Hsubmit, Hdialog. destruct dialogConfirmButton as [button|]; [| done].
    by destruct (element_click world button w3).
Qed.

End Claims.


(** * Runs on the scripted site *)

(** C1: the test made before each page task never stops the loop.  On
    a site that sends the browser to the return URL when the first page
    is submitted, the four site tests that follow all find the session
    off the Stripe site, and yet every remaining page task is run. *)
Theorem early_exit_check_never_fires :
  let '(r, p, tr) :=
    onboard (Toy.site Toy.leaves_early) (Toy.options_for Toy.start None)
            Toy.blank in
  r = Fulfilled tt /\
  Toy.href p = "https://stripe.com/" /\
  site_tests tr =
    [Fulfilled true; Fulfilled false; Fulfilled false; Fulfilled false;
     Fulfilled false] /\
  begins tr =
    ["fillOutGetPaidByPage"; "fillOutVerificationCodePage";
     "fillOutTellUsAboutYourBusinessPage"; "fillOutCompanyPage";
     "fillOutSummaryPage"].
Proof. vm_compute. repeat split. Qed.

(** C2: a flow that ends in the [catch] block with the session off the
    Stripe site resolves without [browser.close()] ever being called:
    the browser stays open. *)
Theorem benign_catch_leaves_browser_open :
  let '(r, p, tr) :=
    onboard (Toy.site Toy.leaves_early_and_fails)
            (Toy.options_for Toy.start None) Toy.blank in
  r = Fulfilled tt /\
  closes tr = 0%nat /\
  Toy.browser_open p = true /\
  last tr = Some (Await (IsOnStripePage (Fulfilled false))).
Proof. vm_compute. repeat split. Qed.

(** C5: in debug mode the alert shows the text [[object Promise]] where
    the current location should be; the location itself is not in it.
    The browser stays open and the flow resolves. *)
Theorem debug_alert_lacks_location :
  let '(r, p, tr) :=
    onboard (Toy.site Toy.breaks)
            (Toy.options_for Toy.start (Some (DebugBool true))) Toy.blank in
  r = Fulfilled tt /\
  Toy.browser_open p = true /\
  closes tr = 0%nat /\
  Toy.href p = Toy.start /\
  exists message,
    Toy.shown p = [message] /\
    includes "Error: No element found for selector: #email" message = true /\
    includes (newline +:+ "debug: true") message = true /\
    includes (newline +:+ "values: {") message = true /\
    includes (newline +:+ "url: [object Promise]" +:+ newline +:+ "1.0.0")
             message = true /\
    includes (Toy.href p) message = false.
Proof. vm_compute. repeat split. eexists. repeat split. Qed.


(** Against C4 as stated: an error raised and caught while the session
    is on the Stripe site does not always reach the caller.  In debug
    mode the flow resolves; and when the browser does not close, the
    flow is rejected with the error of [browser.close()], not with the
    error that was caught. *)
Lemma caught_errors_need_not_surface :
  (let '(r, p, tr) :=
     onboard (Toy.site Toy.breaks)
             (Toy.options_for Toy.start (Some (DebugBool true))) Toy.blank in
   TaskEnd "fillOutGetPaidByPage"
     (Rejected (Error "No element found for selector: #email")) ∈ tr /\
   Await (IsOnStripePage (Fulfilled true)) ∈ tr /\
   r = Fulfilled tt) /\
  (let '(r, p, tr) :=
     onboard (Toy.jammed Toy.breaks) (Toy.options_for Toy.start None)
             Toy.blank in
   TaskEnd "fillOutGetPaidByPage"
     (Rejected (Error "No element found for selector: #email")) ∈ tr /\
   Await (IsOnStripePage (Fulfilled true)) ∈ tr /\
   r = Rejected (Error "Protocol error (Browser.close): Target closed")).
Proof.
  split; vm_compute; (split_and!; [| | done]);
    apply list_elem_of_In; simpl; repeat ((left; reflexivity) || right).
Qed.

(** Against C6 as stated: with the debug option falsy and the session
    on the Stripe site, an error of a page task is caught, the browser
    is asked to close, and because [browser.close()] is rejected the
    caller gets that rejection: the original error is not raised
    again. *)
Lemma rejected_close_replaces_the_error :
  let '(r, p, tr) :=
    onboard (Toy.jammed Toy.breaks) (Toy.options_for Toy.start None)
            Toy.blank in
  skipn 14 tr =
    [TaskEnd "fillOutGetPaidByPage"
       (Rejected (Error "No element found for selector: #email"));
     Await (IsOnStripePage (Fulfilled true));
     Ora {| text := "Closing browser"; isSilent := true; isEnabled := true |};
     Await (Close (Rejected
                     (Error "Protocol error (Browser.close): Target closed")))] /\
  r = Rejected (Error "Protocol error (Browser.close): Target closed") /\
  r <> Rejected (Error "No element found for selector: #email").
Proof. vm_compute. split_and!; [done | done | discriminate]. Qed.

(** Against C8 as stated: elements with role status on the summary page
    do not always make the flow fail with the error of the summary
    task.  In debug mode the flow resolves, and so it does when the
    session has left the Stripe site; when the browser does not close,
    the flow is rejected with the error of [browser.close()]. *)
Lemma missing_fields_need_not_fail_the_flow :
  (let '(r, p, tr) :=
     onboard (Toy.site Toy.missing_fields)
             (Toy.options_for Toy.start (Some (DebugBool true))) Toy.blank in
   InTask (QueryAll "*[role=status]" (Fulfilled [100%nat])) ∈ tr /\
   r = Fulfilled tt) /\
  (let '(r, p, tr) :=
     onboard (Toy.site Toy.missing_fields_and_leaves)
             (Toy.options_for Toy.start None) Toy.blank in
   InTask (QueryAll "*[role=status]" (Fulfilled [100%nat])) ∈ tr /\
   r = Fulfilled tt) /\
  (let '(r, p, tr) :=
     onboard (Toy.jammed Toy.missing_fields) (Toy.options_for Toy.start None)
             Toy.blank in
   InTask (QueryAll "*[role=status]" (Fulfilled [100%nat])) ∈ tr /\
   r = Rejected (Error "Protocol error (Browser.close): Target closed")).
Proof.
  split_and!; vm_compute; (split; [| done]);
    apply list_elem_of_In; simpl; repeat ((left; reflexivity) || right).
Qed.

(** Against C9 as stated: a step is not always followed by a wait.
    When the first page task throws, nothing but the [catch] block
    follows it; and when alerts are found after it, only the reading of
    their texts and the [catch] block do.  No wait is made after the
    task in either run. *)
Lemma failed_step_is_followed_by_no_wait :
  skipn 12 (onboard (Toy.site Toy.breaks) (Toy.options_for Toy.start None)
                    Toy.blank).2 =
    [TaskBegin "fillOutGetPaidByPage";
     InTask (Stripe "fillOutEmail" None
               (Rejected (Error "No element found for selector: #email")));
     TaskEnd "fillOutGetPaidByPage"
       (Rejected (Error "No element found for selector: #email"));
     Await (IsOnStripePage (Fulfilled true));
     Ora {| text := "Closing browser"; isSilent := true; isEnabled := true |};
     Await (Close (Fulfilled tt))] /\
  skipn 12 (onboard (Toy.site Toy.bad_phone) (Toy.options_for Toy.start None)
                    Toy.blank).2 =
    [TaskBegin "fillOutGetPaidByPage";
     InTask (Stripe "fillOutEmail" None (Fulfilled tt));
     InTask (Stripe "fillOutPhoneNumber" (Some "personal") (Fulfilled tt));
     InTask (Stripe "clickSubmitButton" None (Fulfilled tt));
     TaskEnd "fillOutGetPaidByPage" (Fulfilled tt);
     Await (QueryAll alertSelector (Fulfilled [10%nat]));
     Await (TextContent 10%nat (Fulfilled (Some "Phone number invalid")));
     Await (IsOnStripePage (Fulfilled true));
     Ora {| text := "Closing browser"; isSilent := true; isEnabled := true |};
     Await (Close (Fulfilled tt))].
Proof. split; vm_compute; reflexivity. Qed.

(** * The theorems at work on the scripted site *)

Lemma default_values_and_merge_witness :
  getDefaultOnboardValues (faker (Toy.site Toy.smooth)) (Some (VStr "SE")) =
  defaultValues (faker (Toy.site Toy.smooth)) /\
  onboard_values (faker (Toy.site Toy.smooth))
    {| headless := None; silent := None;
       values := Some {["email" := VStr "me@example.org"]};
       url := Toy.start; debug := None |} !! "email" =
  Some (VStr "me@example.org").
Proof.
  destruct (default_values_and_merge (Toy.site Toy.smooth))
    as (_ & _ & Hother & _ & _ & Hgiven & _).
  split.
  - apply Hother. discriminate.
  - eapply Hgiven; [reflexivity | vm_compute; reflexivity].
Defined.

Lemma page_tasks_run_in_order_witness :
  begins Toy.smooth_run.2 `prefix_of`
    ["fillOutGetPaidByPage"; "fillOutVerificationCodePage";
     "fillOutTellUsAboutYourBusinessPage"; "fillOutCompanyPage";
     "fillOutSummaryPage"] /\
  exists done wk,
    carried_out (Toy.site Toy.smooth)
      (onboard_context (faker (Toy.site Toy.smooth))
         (Toy.options_for Toy.start None)) done Toy.loaded wk /\
    map task_name done `prefix_of` begins Toy.smooth_run.2.
Proof.
  assert (onboard (Toy.site Toy.smooth) (Toy.options_for Toy.start None)
            Toy.blank =
          (Toy.smooth_run.1.1, Toy.smooth_run.1.2, Toy.smooth_run.2)) as Hrun.
  { unfold Toy.smooth_run. by destruct (onboard _ _ _) as [[? ?] ?]. }
  assert (allFlows (Toy.site Toy.smooth)
            (property_key
               (onboard_values (faker (Toy.site Toy.smooth))
                  (Toy.options_for Toy.start None) !! "business_type")) =
          Some Toy.company_flow) as Hflow by (vm_compute; reflexivity).
  destruct (page_tasks_run_in_order (Toy.site Toy.smooth)
              (Toy.options_for Toy.start None) Toy.blank
              Toy.smooth_run.1.1 Toy.smooth_run.1.2 Toy.smooth_run.2
              Toy.company_flow Hrun Hflow)
    as (_ & _ & Hprefix & _ & _ & Hworld).
  split; [exact Hprefix |].
  destruct (Hworld Toy.loaded) as (done & wk & Hdone & Hnames & _).
  - exists (Toy.set_open true Toy.blank), (Toy.set_open true Toy.blank),
      (Toy.set_open true Toy.blank).
    split_and!; reflexivity.
  - by exists done, wk.
Defined.

Lemma steps_wait_for_network_idle_witness :
  (exists a b,
     firstn 12 Toy.smooth_run.2 =
     a ++ Await (WaitForNetworkIdle 3000 (Fulfilled tt)) :: b /\
     forallb around_task b = true) /\
  Toy.broken_page_run.1 =
  (Rejected (Error "No element found for selector: #email"), Toy.loaded).
Proof.
  destruct (steps_wait_for_network_idle (Toy.site Toy.smooth)) as [Hlog _].
  destruct (steps_wait_for_network_idle (Toy.site Toy.breaks)) as [_ Hworld].
  split.
  - refine (proj1 (Hlog (Toy.options_for Toy.start None) Toy.blank
                     Toy.smooth_run.1.1 Toy.smooth_run.1.2
                     Toy.smooth_run.2 _)
              (firstn 12 Toy.smooth_run.2) "fillOutGetPaidByPage"
              (skipn 13 Toy.smooth_run.2) _).
    + unfold Toy.smooth_run. by destruct (onboard _ _ _) as [[? ?] ?].
    + vm_compute. reflexivity.
  - destruct (Hworld (Toy.context_for None)
                (fillOutGetPaidByPage (Toy.site Toy.breaks)) [] Toy.loaded)
      as [_ Hafter].
    destruct (Hafter Toy.loaded) as [Hthrows _].
    + exists Toy.loaded, (Fulfilled true), Toy.loaded.
      split_and!; [reflexivity | reflexivity |].
      exists (Some 0%nat), Toy.loaded. split; [reflexivity |].
      by exists (Some " Details ").
    + eapply Hthrows. reflexivity.
Defined.


Lemma caught_error_off_site_is_dropped_witness :
  (flow_try_catch (Toy.site Toy.leaves_early_and_fails) (Toy.context_for None)
     (Some []) Toy.loaded).1.1 = Fulfilled tt.
Proof.
  assert (flow_try (Toy.site Toy.leaves_early_and_fails) (Toy.context_for None)
            (Some []) Toy.loaded =
          (Rejected (Error "No element found for selector: input"),
           Toy.early_try.1.2, Toy.early_try.2)) as Htry
    by (vm_compute; reflexivity).
  assert (isOnStripePage (Toy.site Toy.leaves_early_and_fails)
            (Toy.context_for None) Toy.early_try.1.2 =
          (Fulfilled false, Toy.early_try.1.2)) as Hsite
    by (vm_compute; reflexivity).
  destruct (caught_error_off_site_is_dropped _ _ _ _ _ _ _ _ _ Htry Hsite)
    as [Hoff _].
  rewrite (Hoff eq_refl). reflexivity.
Defined.

Lemma failure_closes_and_rethrows_witness :
  (flow_try_catch (Toy.site Toy.breaks) (Toy.context_for None) (Some [])
     Toy.loaded).1.1 =
  Rejected (Error "No element found for selector: #email").
Proof.
  assert (flow_try (Toy.site Toy.breaks) (Toy.context_for None) (Some [])
            Toy.loaded =
          (Rejected (Error "No element found for selector: #email"),
           Toy.broken_try.1.2, Toy.broken_try.2)) as Htry
    by (vm_compute; reflexivity).
  assert (isOnStripePage (Toy.site Toy.breaks) (Toy.context_for None)
            Toy.broken_try.1.2 =
          (Fulfilled true, Toy.broken_try.1.2)) as Hsite
    by (vm_compute; reflexivity).
  assert (browser_close (Toy.site Toy.breaks) Toy.broken_try.1.2 =
          (Fulfilled tt, Toy.set_open false Toy.broken_try.1.2)) as Hclose
    by reflexivity.
  rewrite (failure_closes_and_rethrows _ _ _ _ _ _ _ _ _ _
             Htry Hsite eq_refl Hclose).
  reflexivity.
Defined.

Lemma summary_page_submits_witness :
  task_run (fillOutSummaryPage (Toy.site Toy.smooth)) (Toy.context_for None)
    Toy.summary_with_dialog =
  (Fulfilled tt, Toy.loaded,
   [QueryAll "*[role=status]" (Fulfilled []);
    Stripe "clickSubmitButton" (Some "requirements-index-done-button")
           (Fulfilled tt);
    Query dialogConfirmSelector (Fulfilled (Some 1%nat));
    Click 1%nat (Fulfilled tt)]).
Proof.
  assert (page_queryAll (Toy.site Toy.smooth) "*[role=status]"
            Toy.summary_with_dialog =
          (Fulfilled [], Toy.summary_with_dialog)) as Hstatus
    by (vm_compute; reflexivity).
  destruct (summary_page_submits (Toy.site Toy.smooth) (Toy.context_for None)
              _ _ _ Hstatus) as [_ Hnone].
  rewrite (Hnone eq_refl Toy.summary_with_dialog (Some 1%nat)
             Toy.summary_with_dialog);
    [reflexivity | reflexivity | vm_compute; reflexivity].
Defined.

(** * The test matrix *)

Section Matrix.

Context {T : Type}.

Lemma flatten_fold {A} (xs : list (list A)) (acc : list A) :
  fold_left (fun subResults result => subResults ++ result) xs acc =
  acc ++ concat xs.
Proof.
  revert acc. induction xs as [|x xs IH]; intros acc; simpl.
  - by rewrite app_nil_r.
  - by rewrite IH, app_assoc.
Qed.

Lemma extend_all (results : list (list T)) (rest : list (list T)) entries :
  concat (map (fun a => map (app a) rest)
            (concat (map (fun result => map (fun entry => result ++ [entry]) entries)
                         results))) =
  concat (map (fun a =>
                 map (app a)
                     (concat (map (fun entry => map (cons entry) rest) entries)))
              results).
Proof.
  induction results as [|a results IH]; [done |]. simpl.
  rewrite map_app, concat_app, IH. f_equal.
  clear IH. induction entries as [|e entries IH]; [done |]. simpl.
  rewrite map_app, IH. f_equal.
  rewrite map_map. apply map_ext. intros c. by rewrite <- app_assoc.
Qed.

Lemma cartesianProduct_from (allEntries : list (list T)) results :
  fold_left
    (fun results entries =>
       fold_left (fun subResults result => subResults ++ result)
         (map (fun result => map (fun entry => result ++ [entry]) entries)
              results)
         [])
    allEntries results =
  concat (map (fun a => map (app a) (combinations allEntries)) results).
Proof.
  revert results.
  induction allEntries as [|entries rest IH]; intros results.
  - simpl. induction results as [|a results IHr]; [done |]. simpl.
    by rewrite app_nil_r, <- IHr.
  - cbn [fold_left combinations]. rewrite flatten_fold, IH. cbn [app].
    apply extend_all.
Qed.

Lemma cartesianProduct_combinations (allEntries : list (list T)) :
  cartesianProduct allEntries = combinations allEntries.
Proof.
  unfold cartesianProduct. rewrite cartesianProduct_from. simpl.
  rewrite app_nil_r. rewrite <- (map_id (combinations allEntries)) at 2.
  by apply map_ext.
Qed.

Lemma length_prepend (entries : list T) (rest : list (list T)) :
  length (concat (map (fun entry => map (cons entry) rest) entries)) =
  (length entries * length rest)%nat.
Proof.
  induction entries as [|e entries IH]; [done |]. simpl.
  by rewrite length_app, length_map, IH.
Qed.

Lemma combinations_length (allEntries : list (list T)) :
  length (combinations allEntries) =
  foldr (fun entries n => (length entries * n)%nat) 1%nat allEntries.
Proof.
  induction allEntries as [|entries rest IH]; [done |]. simpl.
  by rewrite length_prepend, IH.
Qed.

Lemma combinations_members (allEntries : list (list T)) (c : list T) :
  c ∈ combinations allEntries <->
  Forall2 (fun entry entries => entry ∈ entries) c allEntries.
Proof.
  revert c. induction allEntries as [|entries rest IH]; intros c; simpl.
  - rewrite list_elem_of_singleton. split; [by intros -> |].
    by intros ->%Forall2_nil_inv_r.
  - rewrite list_elem_of_In, in_concat. split.
    + intros (l & Hl & Hc). apply in_map_iff in Hl as (e & <- & He).
      apply in_map_iff in Hc as (c' & <- & Hc').
      constructor; [by apply list_elem_of_In | by apply IH, list_elem_of_In].
    + intros Hall. inversion Hall as [|e entries' c' rest' He Hc']; subst.
      exists (map (cons e) (combinations rest)). split.
      * apply in_map_iff. exists e. split; [done | by apply list_elem_of_In].
      * apply in_map. by apply list_elem_of_In, IH.
Qed.

(** X1: [cartesianProduct] lists, for each entry of the first list in
    turn, that entry followed by each combination of the other lists:
    the first key of the matrix varies slowest.  Of no list at all it
    is the one empty combination. *)
Theorem cartesianProduct_unfolds (entries : list T) (rest : list (list T)) :
  cartesianProduct (@nil (list T)) = [[]] /\
  cartesianProduct (entries :: rest) =
  concat (map (fun entry => map (cons entry) (cartesianProduct rest)) entries).
Proof. split; [done |]. by rewrite !cartesianProduct_combinations. Qed.

(** X2: the number of combinations is the product of the lengths of the
    entry lists; there is none as soon as one list is empty. *)
Theorem cartesianProduct_length (allEntries : list (list T)) :
  length (cartesianProduct allEntries) =
  foldr (fun entries n => (length entries * n)%nat) 1%nat allEntries /\
  ([] ∈ allEntries -> cartesianProduct allEntries = []).
Proof.
  rewrite cartesianProduct_combinations.
  split; [apply combinations_length |]. intros Hin.
  apply length_zero_iff_nil. rewrite combinations_length.
  induction allEntries as [|entries rest IH]; [by inversion Hin |].
  simpl. apply elem_of_cons in Hin as [<- | Hin]; [done |].
  rewrite IH by done. lia.
Qed.

(** X3: a list is among the combinations exactly when it takes one
    entry from each list, in the order of the lists. *)
Theorem cartesianProduct_members (allEntries : list (list T)) (c : list T) :
  c ∈ cartesianProduct allEntries <->
  Forall2 (fun entry entries => entry ∈ entries) c allEntries.
Proof. rewrite cartesianProduct_combinations. apply combinations_members. Qed.

End Matrix.

Section MatrixParams.

Lemma property_cons_eq key entries input :
  property ((key, entries) :: input) key = entries.
Proof. unfold property. simpl. by rewrite decide_True. Qed.

Lemma property_cons_ne key key' entries input :
  key <> key' -> property ((key, entries) :: input) key' = property input key'.
Proof.
  intros Hne. unfold property. simpl. rewrite decide_False by done.
  by destruct (list_find _ input) as [[i [k vs]]|].
Qed.

Lemma property_own (input : list (string * list value)) :
  NoDup input.*1 -> map (property input) input.*1 = input.*2.
Proof.
  induction input as [|[key entries] input IH]; [done |].
  rewrite !fmap_cons. cbn [fst snd map].
  intros [Hnotin Hnodup]%NoDup_cons. rewrite property_cons_eq.
  f_equal. rewrite <- IH by done. apply map_ext_in.
  intros key' Hin%list_elem_of_In. apply property_cons_ne. by intros ->.
Qed.

Lemma reduce_keys_params keys index acc (combination : list value) key :
  NoDup keys ->
  let f := fun (acc : object) key index =>
             match combination !! index with
             | Some v => if value_truthy v then <[key := v]> acc else acc
             | None => acc
             end in
  (key ∉ keys -> reduce_keys f keys index acc !! key = acc !! key) /\
  (forall i,
     keys !! i = Some key ->
     reduce_keys f keys index acc !! key =
     match combination !! (index + i)%nat with
     | Some v => if value_truthy v then Some v else acc !! key
     | None => acc !! key
     end).
Proof.
  intros Hnodup f. revert index acc.
  induction keys as [|k keys IH]; intros index acc; [done |].
  apply NoDup_cons in Hnodup as [Hk Hnodup].
  destruct (IH Hnodup (S index) (f acc k index)) as [IHout IHin]. split.
  - intros [Hne Hnotin]%not_elem_of_cons. simpl. rewrite IHout by done.
    unfold f. destruct (combination !! index) as [v|]; [| done].
    destruct (value_truthy v); [| done]. by rewrite lookup_insert_ne.
  - intros [|i] Hi; simpl in Hi.
    + injection Hi as ->. simpl. rewrite IHout by done.
      rewrite Nat.add_0_r. unfold f.
      destruct (combination !! index) as [v|]; [| done].
      destruct (value_truthy v); [| done]. by rewrite lookup_insert_eq.
    + simpl. rewrite (IHin i Hi).
      replace (S index + i)%nat with (index + S i)%nat by lia.
      assert (k <> key) as Hne.
      { intros ->. apply Hk. by eapply list_elem_of_lookup_2. }
      assert (f acc k index !! key = acc !! key) as ->; [| done].
      unfold f. destruct (combination !! index) as [v|]; [| done].
      destruct (value_truthy v); [| done]. by rewrite lookup_insert_ne.
Qed.

(** X4: in the parameters that [itMatrix] builds for a combination,
    each key of the matrix holds the value at its own index in the
    combination if that value is truthy, and is left out if the value is
    falsy or missing; no other key is set. *)
Theorem itMatrix_params keys (combination : list value) :
  NoDup keys ->
  (forall i key,
     keys !! i = Some key ->
     params_of keys combination !! key =
     match combination !! i with
     | Some v => if value_truthy v then Some v else None
     | None => None
     end) /\
  (forall key, key ∉ keys -> params_of keys combination !! key = None).
Proof.
  intros Hnodup. split.
  - intros i key Hi.
    destruct (reduce_keys_params keys 0 ∅ combination key Hnodup) as [_ Hin].
    unfold params_of. rewrite (Hin i Hi). simpl.
    destruct (combination !! i) as [v|]; [| done]. by destruct (value_truthy v).
  - intros key Hkey.
    destruct (reduce_keys_params keys 0 ∅ combination key Hnodup) as [Hout _].
    unfold params_of. by rewrite Hout.
Qed.

(** X5: for a matrix with distinct keys, [itMatrix] registers as many
    tests as the product of the numbers of values of the keys; each is
    named by the serialised parameters and gets the parameters built
    from one choice of a value per key, and every such choice has its
    test. *)
Theorem itMatrix_tests stringify (input : list (string * list value)) :
  NoDup input.*1 ->
  length (itMatrix stringify input) =
  foldr (fun entries n => (length entries * n)%nat) 1%nat input.*2 /\
  (forall name params,
     (name, params) ∈ itMatrix stringify input <->
     exists combination,
       Forall2 (fun entry entries => entry ∈ entries) combination input.*2 /\
       params = params_of input.*1 combination /\
       name = stringify params).
Proof.
  intros Hnodup. unfold itMatrix. rewrite property_own by done. split.
  - rewrite length_map, cartesianProduct_combinations.
    apply combinations_length.
  - intros name params. rewrite list_elem_of_fmap.
    rewrite cartesianProduct_combinations. split.
    + intros (c & [= -> ->] & Hc%combinations_members). by exists c.
    + intros (c & Hc & -> & ->). exists c. split; [done |].
      by apply combinations_members.
Qed.

End MatrixParams.

(** * More on the default values *)

Section MoreDefaults.

Context (faker : Faker).

(** X6: the defaults for ["DK"] differ from the US defaults only in
    [phone], [company_phone], [account_number], [routing_number] and,
    within [address], in [zip], [city] and [state]. *)
Theorem DK_changes_only_these :
  (forall k,
     k ∉ ["phone"; "company_phone"; "account_number"; "routing_number";
          "address"] ->
     getDefaultOnboardValues faker (Some (VStr "DK")) !! k =
     defaultValues faker !! k) /\
  (forall k,
     k ∉ ["zip"; "city"; "state"] ->
     address_field (getDefaultOnboardValues faker (Some (VStr "DK"))) k =
     address_field (defaultValues faker) k).
Proof.
  split; intros k Hk; unfold getDefaultOnboardValues;
    rewrite decide_True by done; cbv zeta.
  - rewrite !not_elem_of_cons in Hk.
    destruct Hk as (Hp & Hcp & Ha & Hr & Haddr & _).
    unfold on_address.
    rewrite lookup_delete_ne, lookup_alter_ne, lookup_insert_ne by done.
    rewrite !lookup_alter_ne, !lookup_insert_ne by done. done.
  - rewrite !not_elem_of_cons in Hk. destruct Hk as (Hz & Hc & Hs & _).
    unfold address_field, on_address.
    rewrite lookup_delete_ne, lookup_alter_eq, lookup_insert_ne by done.
    rewrite !lookup_alter_eq, !lookup_insert_ne by done.
    destruct (defaultValues faker !! "address") as [[| s | a]|]; try done.
    simpl. by rewrite lookup_delete_ne, !lookup_insert_ne by done.
Qed.

(** X7: the merge is shallow.  An [address] given by the caller
    replaces the default address as a whole: the merged address has
    exactly the caller's fields, and a field the caller left out stays
    out although the defaults have it. *)
Theorem caller_address_replaces_default options given a :
  values options = Some given ->
  given !! "address" = Some (VObj a) ->
  (forall k, address_field (onboard_values faker options) k = a !! k) /\
  (a !! "city" = None ->
   address_field (onboard_values faker options) "city" = None /\
   is_Some (address_field (getDefaultOnboardValues faker (values_country options))
              "city")).
Proof.
  intros Hvalues Haddress.
  assert (forall k, address_field (onboard_values faker options) k = a !! k) as Hall.
  { intros k. unfold address_field, onboard_values. rewrite Hvalues. simpl.
    by rewrite (spread_overrides _ _ _ _ Haddress). }
  split; [done |]. intros Hcity. split; [by rewrite Hall |].
  unfold getDefaultOnboardValues. case_decide; vm_compute; eauto.
Qed.

(** X8: the defaults are chosen by the caller's own [country].  When
    the caller gives no [routing_number], the merged values have none
    if the caller's country is ["DK"], and the test routing number
    [110000000] otherwise; a country given by the caller, whatever it
    is, is the merged country, while with none given it is ["US"]. *)
Theorem routing_number_follows_country options given :
  values options = Some given ->
  given !! "routing_number" = None ->
  (given !! "country" = Some (VStr "DK") ->
   onboard_values faker options !! "routing_number" = None /\
   onboard_values faker options !! "country" = Some (VStr "DK")) /\
  (given !! "country" <> Some (VStr "DK") ->
   onboard_values faker options !! "routing_number" =
   Some (VStr "110000000")) /\
  (forall country,
     given !! "country" = Some country ->
     onboard_values faker options !! "country" = Some country) /\
  (given !! "country" = None ->
   onboard_values faker options !! "country" = Some (VStr "US")).
Proof.
  intros Hvalues Hrouting. unfold onboard_values, values_country.
  rewrite Hvalues. simpl. split_and!.
  - intros Hdk. rewrite Hdk. split.
    + rewrite spread_keeps by done. by vm_compute.
    + by apply spread_overrides.
  - intros Hne. rewrite spread_keeps by done.
    rewrite getDefaultOnboardValues_not_DK by done. by vm_compute.
  - intros country Hcountry. by apply spread_overrides.
  - intros Hnone. rewrite spread_keeps by done. rewrite Hnone. by vm_compute.
Qed.

End MoreDefaults.

(** * More on the engine *)

Lemma closes_app a b : closes (a ++ b) = (closes a + closes b)%nat.
Proof. unfold closes. by rewrite omap_app, length_app. Qed.

Lemma in_pages_closes tr : forallb in_pages tr = true -> closes tr = 0%nat.
Proof.
  induction tr as [|e tr IH]; [done |]. simpl.
  intros [He Htr]%andb_prop. specialize (IH Htr).
  destruct e as [| c | c | | |]; try done; by destruct c.
Qed.

Lemma around_task_in_pages tr :
  forallb around_task tr = true -> forallb in_pages tr = true.
Proof.
  induction tr as [|e tr IH]; [done |]. simpl.
  intros [He Htr]%andb_prop. rewrite IH by done.
  destruct e as [| c | c | | |]; try done; by destruct c.
Qed.

Lemma in_task_in_pages calls : forallb in_pages (map InTask calls) = true.
Proof. by induction calls. Qed.

Lemma shape_in_pages options names r tr :
  shape options names r tr -> forallb in_pages tr = true.
Proof.
  induction 1 as [| n names head e Hh | n names head calls e Hh
                  | n names head calls e Hh
                  | n names head calls hs reads texts failed Hh Hhs Hreads
                  | n names head calls e Hh
                  | n names head calls r rest Hh Hrest IH];
    try apply around_task_in_pages in Hh;
    try apply alert_reads_around, around_task_in_pages in Hreads;
    unfold completed_step, navigating, submitting; try done;
    repeat first [ rewrite forallb_app | rewrite Hh | rewrite Hreads
                 | rewrite IH | rewrite in_task_in_pages
                 | progress cbn [forallb app in_pages andb] ];
    done.
Qed.

Ltac walk_log Heq :=
  repeat first
    [ solve [ exfalso; eapply around_no_split; [ | | exact Heq];
              [eassumption | reflexivity] ]
    | match type of Heq with
      | [] = ?pre ++ _ :: _ => by destruct pre
      | (?a ++ ?b) ++ ?c = _ =>
          rewrite <- (app_assoc a b c) in Heq; cbn [app] in Heq
      | ?h ++ ?l = ?pre ++ ?x :: ?post =>
          let pre' := fresh "pre" in
          apply app_eq_split_l in Heq as (pre' & -> & Heq);
          [| solve [ eapply not_in_around; [eassumption | reflexivity]
                   | apply not_in_in_task; intros ?; discriminate ] ]
      | ?e :: ?l = ?pre ++ ?x :: ?post =>
          let Hhit := fresh "Hhit" in
          let Hpost := fresh "Hpost" in
          destruct pre as [|? ?];
          [ cbn [app] in Heq; injection Heq as Hhit Hpost;
            try discriminate Hhit
          | cbn [app] in Heq; injection Heq as <- Heq ]
      end ].

Lemma shape_task_error options names r tr pre n e post :
  shape options names r tr ->
  tr = pre ++ TaskEnd n (Rejected e) :: post ->
  r = Rejected e /\ post = [].
Proof.
  intros Hshape. revert pre.
  induction Hshape as [| n0 names head e0 Hh | n0 names head calls e0 Hh
                  | n0 names head calls e0 Hh
                  | n0 names head calls hs reads texts failed Hh Hhs Hreads
                  | n0 names head calls e0 Hh
                  | n0 names head calls r rest Hh Hrest IH];
    intros pre Heq;
    try (pose proof (alert_reads_around _ _ _ _ Hreads) as Haround);
    unfold completed_step, navigating, submitting in Heq;
    cbn [app] in Heq; walk_log Heq; simplify_eq.
  - done.
  - by eapply IH.
Qed.

Section MoreEngine.

Context {W : Type} (world : World W).

(** X9: a page task that throws makes [fillOutPages] throw the same
    error at once: it is the last thing in the log, so no check for
    validation errors, no wait and no other task follows. *)
Theorem task_error_ends_the_loop context pageTasks w r w' tr pre n e post :
  fillOutPages world context pageTasks w = (r, w', tr) ->
  tr = pre ++ TaskEnd n (Rejected e) :: post ->
  r = Rejected e /\ post = [].
Proof.
  intros Hrun%fillOutPages_shape Heq. by eapply shape_task_error.
Qed.

(** X10: [fillOutPages] resolves only when every page task it was given
    has been started, in the order given: no run of it resolves early. *)
Theorem pages_resolve_only_when_all_ran context pageTasks w w' tr :
  fillOutPages world context pageTasks w = (Fulfilled tt, w', tr) ->
  begins tr = map task_name pageTasks.
Proof.
  intros Hrun%fillOutPages_shape.
  destruct (shape_begins _ _ _ _ Hrun) as [_ Hall]. by apply Hall.
Qed.

Lemma fillOutPages_in_pages context pageTasks w r w' tr :
  fillOutPages world context pageTasks w = (r, w', tr) ->
  closes tr = 0%nat /\
  (forall m s, Await (Alert m s) ∉ tr) /\
  (forall s, Await (IsOnStripePage s) ∉ tr).
Proof.
  intros Hrun%fillOutPages_shape. apply shape_in_pages in Hrun.
  split_and!.
  - by apply in_pages_closes.
  - intros m s Hin. rewrite forallb_forall in Hrun.
    by apply list_elem_of_In, Hrun in Hin.
  - intros s Hin. rewrite forallb_forall in Hrun.
    by apply list_elem_of_In, Hrun in Hin.
Qed.

(** X11: [fillOutPages] never closes the browser, never shows an alert,
    and never awaits the site test. *)
Theorem pages_never_close_or_alert context pageTasks w r w' tr :
  fillOutPages world context pageTasks w = (r, w', tr) ->
  closes tr = 0%nat /\
  (forall m s, Await (Alert m s) ∉ tr) /\
  (forall s, Await (IsOnStripePage s) ∉ tr).
Proof.
  intros Hrun%fillOutPages_shape. apply shape_in_pages in Hrun.
  split_and!.
  - by apply in_pages_closes.
  - intros m s Hin. rewrite forallb_forall in Hrun.
    by apply list_elem_of_In, Hrun in Hin.
  - intros s Hin. rewrite forallb_forall in Hrun.
    by apply list_elem_of_In, Hrun in Hin.
Qed.

Lemma flow_try_closes context pageTasks w r w' tr :
  flow_try world context pageTasks w = (r, w', tr) ->
  (closes tr = 0%nat /\ (forall s, Await (IsOnStripePage s) ∉ tr) /\
   exists e, r = Rejected e) \/
  (closes tr = 1%nat /\ (forall s, Await (IsOnStripePage s) ∉ tr) /\
   last tr = Some (Await (Close r))).
Proof.
  unfold flow_try. intros Hrun.
  apply bind_inv in Hrun as [(e & Hp & ->) | (pages & w1 & t1 & t2 & Hp & Hrun & ->)].
  { destruct pageTasks as [ts|]; [done |]. injection Hp as <- <- <-.
    left. split_and!; [done | | by eexists]. intros s Hin. by inversion Hin. }
  destruct pageTasks as [ts|]; [| done]. injection Hp as <- <- <-. cbn [app].
  apply bind_inv in Hrun as [(e & Hp & ->) | ([] & w2 & t3 & t4 & Hp & Hrun & ->)];
    apply fillOutPages_in_pages in Hp as (Hc & _ & Hs).
  - left. split_and!; [done | done | by eexists].
  - apply closeBrowser_inv in Hrun as [Hclose ->]. right.
    rewrite closes_app, Hc. split_and!; [done | |].
    + intros s [Hin | Hin]%elem_of_app; [by eapply Hs |].
      apply list_elem_of_In in Hin. simpl in Hin. naive_solver.
    + by rewrite last_app.
Qed.

Lemma flow_catch_closes context e w r w' tr :
  flow_catch world context e w = (r, w', tr) ->
  (closes tr <= 1)%nat /\
  (debug_truthy (debug (context_options context)) = true -> closes tr = 0%nat) /\
  (closes tr = 1%nat -> exists e', r = Rejected e').
Proof.
  unfold flow_catch. intros Hrun.
  apply bind_inv in Hrun as [(e' & Hs & ->) | (b & w1 & t1 & t2 & Hs & Hrun & ->)];
    apply await_inv in Hs as [Hs ->].
  { split_and!; [by cbn; lia | done | done]. }
  destruct b; cbn [negb] in Hrun.
  2:{ injection Hrun as <- <- <-. split_and!; [by cbn; lia | done | done]. }
  destruct (debug_truthy (debug (context_options context))).
  - apply bind_inv in Hrun as [(e' & Hl & ->) | (l & w2 & t3 & t4 & Hl & Hrun & ->)];
      apply no_await_inv in Hl as (sl & Hl & Hp & ->); [done |].
    apply await_inv in Hrun as [Hrun ->].
    split_and!; [by cbn; lia | done | done].
  - apply bind_inv in Hrun as [(e' & Hc & ->) | ([] & w2 & t3 & t4 & Hc & Hrun & ->)];
      apply closeBrowser_inv in Hc as [Hc ->].
    + split_and!; [by cbn; lia | done | by eexists].
    + injection Hrun as <- <- <-. split_and!; [by cbn; lia | done | by eexists].
Qed.

(** X12: in every run of the [try]/[catch] statement of [fillOutFlow],
    [browser.close()] is called at most twice, and twice only when the
    first call, at the end of the [try] block, was rejected: the log
    then is some events without a call of [browser.close()] and without
    the site test of the [catch] block, then the rejected call, then
    events with exactly one more call.  In debug mode it is called at
    most once; and when the statement resolves without the [catch] block
    having run, it was called exactly once, as the last thing done, and
    was fulfilled. *)
Theorem browser_closed_at_most_twice context pageTasks w r w' tr :
  flow_try_catch world context pageTasks w = (r, w', tr) ->
  (closes tr <= 2)%nat /\
  (closes tr = 2%nat ->
   exists pre e post,
     tr = pre ++ Await (Close (Rejected e)) :: post /\
     closes pre = 0%nat /\
     (forall s, Await (IsOnStripePage s) ∉ pre) /\
     closes post = 1%nat) /\
  (debug_truthy (debug (context_options context)) = true ->
   (closes tr <= 1)%nat) /\
  (r = Fulfilled tt ->
   (forall s, Await (IsOnStripePage s) ∉ tr) ->
   closes tr = 1%nat /\ last tr = Some (Await (Close (Fulfilled tt)))).
Proof.
  unfold flow_try_catch, try_catch. intros Hrun.
  destruct (flow_try world context pageTasks w) as [[[[]|e] w1] t1] eqn:Htry;
    apply flow_try_closes in Htry
      as [(Hc & Hs & e0 & He) | (Hc & Hs & Hlast)]; try done.
  - injection Hrun as <- <- <-. rewrite Hc. split_and!; [lia | done | lia | done].
  - destruct (flow_catch world context e w1) as [[r2 w2] t2] eqn:Hcatch.
    injection Hrun as <- <- <-.
    destruct (flow_catch_log _ _ _ _ _ _ _ Hcatch) as [_ [s Hsite]].
    apply flow_catch_closes in Hcatch as (Hle & Hdebug & _).
    rewrite closes_app, Hc. split_and!; [lia | lia | auto |].
    intros _ Hno. destruct (Hno s). apply elem_of_app. by right.
  - destruct (flow_catch world context e w1) as [[r2 w2] t2] eqn:Hcatch.
    injection Hrun as <- <- <-.
    destruct (flow_catch_log _ _ _ _ _ _ _ Hcatch) as [_ [s Hsite]].
    apply flow_catch_closes in Hcatch as (Hle & Hdebug & _).
    rewrite closes_app, Hc. split_and!; [lia | | |].
    + intros Htwo.
      destruct t1 as [|x t1 _] using rev_ind; [done |].
      rewrite last_snoc in Hlast. injection Hlast as ->.
      exists t1, e, t2. rewrite <- app_assoc. split_and!.
      * done.
      * rewrite closes_app in Hc. cbn in Hc. lia.
      * intros s' Hin. apply (Hs s'), elem_of_app. by left.
      * lia.
    + intros Hd. rewrite (Hdebug Hd). lia.
    + intros _ Hno. destruct (Hno s). apply elem_of_app. by right.
Qed.

(** X13: when the page cannot be loaded ([page.goto] is rejected after
    the browser was launched and the page opened), [fillOutFlow] is
    rejected with that error, no page task is started, and the browser
    that was launched is never closed. *)
Theorem navigation_failure_leaves_browser_open
  options vals pageTasks w w1 w2 w3 w4 e :
  values options = Some vals ->
  launch world
    {| launch_headless := default true (headless options);
       launch_width := 900; launch_height := 1000; launch_slowMo := 0;
       launch_args := ["--lang=en-US,en"] |} w = (Fulfilled tt, w1) ->
  browser_newPage world w1 = (Fulfilled tt, w2) ->
  page_setExtraHTTPHeaders world [("Accept-Language", "en-US")] w2
  = (Fulfilled tt, w3) ->
  page_goto world (url options) w3 = (Rejected e, w4) ->
  (fillOutFlow world options pageTasks w).1 = (Rejected e, w4) /\
  closes (fillOutFlow world options pageTasks w).2 = 0%nat /\
  begins (fillOutFlow world options pageTasks w).2 = [] /\
  last (fillOutFlow world options pageTasks w).2 =
  Some (Await (Goto (url options) (Rejected e))).
Proof.
  intros Hvalues Hlaunch Hnew Hheaders Hgoto.
  unfold fillOutFlow, oraPromise, bind, emit, await.
  rewrite Hvalues, Hlaunch, Hnew, Hheaders, Hgoto. done.
Qed.

(** X14: the fixed page tasks call their helpers in a fixed order and
    stop at the first one that throws.  The get-paid-by page fills in
    the email, then the personal phone number, then clicks the submit
    button; the submit button is clicked only when both were filled in,
    and the task ends as the last call made does. *)
Theorem get_paid_by_page_calls context w r w' calls :
  task_run (fillOutGetPaidByPage world) context w = (r, w', calls) ->
  calls = [Stripe "fillOutEmail" None r] /\ r <> Fulfilled tt \/
  calls = [Stripe "fillOutEmail" None (Fulfilled tt);
           Stripe "fillOutPhoneNumber" (Some "personal") r] /\
  r <> Fulfilled tt \/
  calls = [Stripe "fillOutEmail" None (Fulfilled tt);
           Stripe "fillOutPhoneNumber" (Some "personal") (Fulfilled tt);
           Stripe "clickSubmitButton" None r].
Proof.
  unfold fillOutGetPaidByPage, task_run, stripe. intros Hrun.
  apply bind_inv in Hrun as [(e & He & ->) | ([] & w1 & t1 & t2 & He & Hrun & ->)];
    apply await_inv in He as [He ->]; [by left |].
  apply bind_inv in Hrun as [(e & Hp & ->) | ([] & w2 & t3 & t4 & Hp & Hrun & ->)];
    apply await_inv in Hp as [Hp ->]; [by right; left |].
  apply await_inv in Hrun as [Hrun ->]. by right; right.
Qed.

End MoreEngine.

(** * Debug mode and the identity fields *)

Section DebugMode.

Context {W : Type} (world : World W).

(** X15: in debug mode no error of the [try] block reaches the caller.
    The [try]/[catch] statement is then rejected only with an error of
    the site test of the [catch] block or of the alert it shows. *)
Theorem debug_mode_swallows_errors context pageTasks w e w' tr :
  debug_truthy (debug (context_options context)) = true ->
  flow_try_catch world context pageTasks w = (Rejected e, w', tr) ->
  last tr = Some (Await (IsOnStripePage (Rejected e))) \/
  exists m, last tr = Some (Await (Alert m (Rejected e))).
Proof.
  intros Hdebug. unfold flow_try_catch, try_catch. intros Hrun.
  destruct (flow_try world context pageTasks w) as [[[[]|e0] w1] t1] eqn:Htry;
    [done |].
  destruct (flow_catch world context e0 w1) as [[r2 w2] t2] eqn:Hcatch.
  injection Hrun as -> <- <-. unfold flow_catch in Hcatch.
  apply bind_inv in Hcatch as [(e' & Hs & He) | (b & w3 & t3 & t4 & Hs & Hcatch & ->)];
    apply await_inv in Hs as [Hs ->].
  { injection He as ->. left. by rewrite last_app. }
  destruct b; cbn [negb] in Hcatch; [| done]. rewrite Hdebug in Hcatch.
  apply bind_inv in Hcatch as [(e' & Hl & _) | (l & w4 & t5 & t6 & Hl & Hcatch & ->)];
    apply no_await_inv in Hl as (sl & Hl & Hp & ->); [done |].
  apply await_inv in Hcatch as [Hcatch ->].
  right. eexists. by rewrite !last_app.
Qed.

End DebugMode.

(** X16: whatever the country, the default record is about one person:
    its [email] is the example address that faker derives from the very
    [first_name] and [last_name] the record carries, and its
    [business_type] is ["company"]. *)
Theorem default_identity_is_consistent (faker : Faker) (country : option value) :
  exists firstName lastName,
    getDefaultOnboardValues faker country !! "first_name" = Some (VStr firstName) /\
    getDefaultOnboardValues faker country !! "last_name" = Some (VStr lastName) /\
    getDefaultOnboardValues faker country !! "email" =
    Some (VStr (internet_exampleEmail faker firstName lastName)) /\
    getDefaultOnboardValues faker country !! "business_type" =
    Some (VStr "company").
Proof.
  exists (name_firstName faker), (name_lastName faker).
  unfold getDefaultOnboardValues. case_decide; by vm_compute.
Qed.

(** * The further theorems at work *)

Lemma cartesianProduct_length_witness :
  cartesianProduct [[1%nat; 2%nat]; []; [3%nat]] = [].
Proof.
  apply (proj2 (cartesianProduct_length [[1%nat; 2%nat]; []; [3%nat]])).
  apply list_elem_of_In. simpl. right. left. reflexivity.
Defined.

Lemma cartesianProduct_members_witness :
  [VStr "company"; VStr "DK"] ∈ cartesianProduct (Toy.matrix.*2).
Proof.
  apply (proj2 (cartesianProduct_members (Toy.matrix.*2)
                  [VStr "company"; VStr "DK"])).
  repeat constructor.
Defined.

Lemma itMatrix_params_witness :
  params_of ["business_type"; "country"] [VStr "company"; VStr ""]
    !! "business_type" = Some (VStr "company") /\
  params_of ["business_type"; "country"] [VStr "company"; VStr ""]
    !! "country" = None.
Proof.
  assert (NoDup ["business_type"; "country"]) as Hnodup
    by (apply NoDup_ListNoDup; repeat constructor; simpl; intuition discriminate).
  destruct (itMatrix_params ["business_type"; "country"]
              [VStr "company"; VStr ""] Hnodup) as [Hin _].
  split.
  - exact (Hin 0%nat "business_type" eq_refl).
  - exact (Hin 1%nat "country" eq_refl).
Defined.

Lemma itMatrix_tests_witness :
  length (itMatrix Toy.stringify Toy.matrix) = 6%nat.
Proof.
  assert (NoDup Toy.matrix.*1) as Hnodup
    by (apply NoDup_ListNoDup; repeat constructor; simpl; intuition discriminate).
  exact (proj1 (itMatrix_tests Toy.stringify Toy.matrix Hnodup)).
Defined.

Lemma DK_changes_only_these_witness :
  getDefaultOnboardValues (faker (Toy.site Toy.smooth)) (Some (VStr "DK"))
    !! "company_tax_id" = Some (VStr "000000000") /\
  address_field
    (getDefaultOnboardValues (faker (Toy.site Toy.smooth)) (Some (VStr "DK")))
    "line1" = Some "address_full_match".
Proof.
  destruct (DK_changes_only_these (faker (Toy.site Toy.smooth))) as [Htop Haddr].
  split.
  - rewrite Htop; [vm_compute; reflexivity |].
    intros Hin. apply list_elem_of_In in Hin. simpl in Hin. intuition discriminate.
  - rewrite Haddr; [vm_compute; reflexivity |].
    intros Hin. apply list_elem_of_In in Hin. simpl in Hin. intuition discriminate.
Defined.

Lemma caller_address_replaces_default_witness :
  address_field
    (onboard_values (faker (Toy.site Toy.smooth))
       (Toy.options_with {["address" := VObj {["line1" := "Main St 1"]}]}))
    "city" = None.
Proof.
  refine (proj1 (proj2 (caller_address_replaces_default
                          (faker (Toy.site Toy.smooth))
                          (Toy.options_with
                             {["address" := VObj {["line1" := "Main St 1"]}]})
                          {["address" := VObj {["line1" := "Main St 1"]}]}
                          {["line1" := "Main St 1"]} eq_refl _) _)).
  - vm_compute. reflexivity.
  - vm_compute. reflexivity.
Defined.

Lemma routing_number_follows_country_witness :
  onboard_values (faker (Toy.site Toy.smooth))
    (Toy.options_with {["country" := VStr "DK"]}) !! "routing_number" = None.
Proof.
  refine (proj1 (proj1 (routing_number_follows_country
                          (faker (Toy.site Toy.smooth))
                          (Toy.options_with {["country" := VStr "DK"]})
                          {["country" := VStr "DK"]} eq_refl _) _)).
  - vm_compute. reflexivity.
  - vm_compute. reflexivity.
Defined.

Lemma task_error_ends_the_loop_witness :
  Toy.broken_page_run.1.1 =
  Rejected (Error "No element found for selector: #email").
Proof.
  refine (proj1 (task_error_ends_the_loop (Toy.site Toy.breaks)
                   (Toy.context_for None)
                   [fillOutGetPaidByPage (Toy.site Toy.breaks)] Toy.loaded
                   Toy.broken_page_run.1.1 Toy.broken_page_run.1.2
                   Toy.broken_page_run.2 (firstn 8 Toy.broken_page_run.2)
                   "fillOutGetPaidByPage"
                   (Error "No element found for selector: #email")
                   (skipn 9 Toy.broken_page_run.2) _ _)).
  - unfold Toy.broken_page_run. by destruct (fillOutPages _ _ _ _) as [[? ?] ?].
  - vm_compute. reflexivity.
Defined.

Lemma pages_resolve_only_when_all_ran_witness :
  begins Toy.early_pages_run.2 = map task_name Toy.early_pages.
Proof.
  refine (pages_resolve_only_when_all_ran (Toy.site Toy.leaves_early)
            (Toy.context_for None) Toy.early_pages Toy.loaded
            Toy.early_pages_run.1.2 Toy.early_pages_run.2 _).
  vm_compute. reflexivity.
Defined.

Lemma pages_never_close_or_alert_witness :
  closes Toy.early_pages_run.2 = 0%nat.
Proof.
  refine (proj1 (pages_never_close_or_alert (Toy.site Toy.leaves_early)
                   (Toy.context_for None) Toy.early_pages Toy.loaded
                   Toy.early_pages_run.1.1 Toy.early_pages_run.1.2
                   Toy.early_pages_run.2 _)).
  unfold Toy.early_pages_run. by destruct (fillOutPages _ _ _ _) as [[? ?] ?].
Defined.

Lemma browser_closed_at_most_twice_witness :
  (closes Toy.broken_flow.2 <= 2)%nat /\
  exists pre e post,
    Toy.jammed_flow.2 = pre ++ Await (Close (Rejected e)) :: post /\
    closes pre = 0%nat /\
    (forall s, Await (IsOnStripePage s) ∉ pre) /\
    closes post = 1%nat.
Proof.
  split.
  - refine (proj1 (browser_closed_at_most_twice (Toy.site Toy.breaks)
                     (Toy.context_for None) (Some []) Toy.loaded
                     Toy.broken_flow.1.1 Toy.broken_flow.1.2 Toy.broken_flow.2 _)).
    unfold Toy.broken_flow. by destruct (flow_try_catch _ _ _ _) as [[? ?] ?].
  - refine (proj1 (proj2 (browser_closed_at_most_twice (Toy.jammed Toy.smooth)
                     (Toy.context_for None) (Some []) Toy.loaded
                     Toy.jammed_flow.1.1 Toy.jammed_flow.1.2 Toy.jammed_flow.2 _))
              _).
    + unfold Toy.jammed_flow. by destruct (flow_try_catch _ _ _ _) as [[? ?] ?].
    + vm_compute. reflexivity.
Defined.

Lemma navigation_failure_leaves_browser_open_witness :
  closes (fillOutFlow Toy.unreachable
            {| headless := None; silent := None; values := Some ∅;
               url := Toy.start; debug := None |} (Some []) Toy.blank).2
  = 0%nat.
Proof.
  refine (proj1 (proj2 (navigation_failure_leaves_browser_open Toy.unreachable
                          {| headless := None; silent := None; values := Some ∅;
                             url := Toy.start; debug := None |}
                          ∅ (Some []) Toy.blank
                          (Toy.set_open true Toy.blank)
                          (Toy.set_open true Toy.blank)
                          (Toy.set_open true Toy.blank)
                          (Toy.set_open true Toy.blank)
                          (Error "net::ERR_NAME_NOT_RESOLVED")
                          eq_refl eq_refl eq_refl eq_refl eq_refl))).
Defined.

Lemma get_paid_by_page_calls_witness :
  (task_run (fillOutGetPaidByPage (Toy.site Toy.breaks)) (Toy.context_for None)
     Toy.loaded).2 =
  [Stripe "fillOutEmail" None
     (Rejected (Error "No element found for selector: #email"))].
Proof.
  destruct (get_paid_by_page_calls (Toy.site Toy.breaks) (Toy.context_for None)
              Toy.loaded
              (Rejected (Error "No element found for selector: #email"))
              Toy.loaded
              [Stripe "fillOutEmail" None
                 (Rejected (Error "No element found for selector: #email"))]
              eq_refl) as [[_ _] | [[Hcalls _] | Hcalls]].
  - reflexivity.
  - discriminate Hcalls.
  - discriminate Hcalls.
Defined.

Lemma debug_mode_swallows_errors_witness :
  exists m,
    last Toy.crashing_flow.2 =
    Some (Await (Alert m (Rejected (Error "Target closed")))).
Proof.
  assert (flow_try_catch Toy.crashing (Toy.context_for (Some (DebugBool true)))
            (Some []) Toy.loaded =
          (Rejected (Error "Target closed"), Toy.crashing_flow.1.2,
           Toy.crashing_flow.2)) as Hrun
    by (vm_compute; reflexivity).
  destruct (debug_mode_swallows_errors Toy.crashing
              (Toy.context_for (Some (DebugBool true))) (Some []) Toy.loaded
              _ _ _ eq_refl Hrun) as [Hlast | Hm].
  - vm_compute in Hlast. discriminate Hlast.
  - exact Hm.
Defined.
